(** * Address book with a weekly birthday report

    A shallow embedding of [task1.py] and [task2.py]: the field classes
    ([Name], [Phone], [Birthday]), [Record], [AddressBook] with
    [get_birthdays_per_week], and the command interpreter of [task2.py]
    ([input_error], [parse_input], the handlers and the loop of [main]).

    Conventions of the embedding.
    - A Python [str] is a [string]; the character with code [n] stands for
      the code point [n], so the embedding covers the strings whose code
      points are below 256.  In that range the regular-expression class
      [\d] is exactly ['0'..'9'].
    - A method that mutates [self] is a computation in the monad [M S],
      a function from the state before the call to an outcome and the state
      after it.  A raised exception is the outcome [Raise e]; the state that
      comes with it is the state at the point of the [raise], since Python
      undoes nothing.
    - A [dict] is an association list in insertion order.
    - [datetime.now()] is a parameter [today] of what reads the clock.
    - The standard input of [main] is a list of lines followed by the end
      of the input.  Signals ([KeyboardInterrupt]) and failures of
      [print] are not modelled. *)

From Stdlib Require Import ZArith List String Ascii Bool Lia DecimalString.
Import ListNotations.

Local Open Scope string_scope.
Local Open Scope Z_scope.

(** ** Exceptions and the state-and-exception monad *)

Inductive exn : Type :=
| ValueError (msg : string)
| TypeError (msg : string)
| IndexError (msg : string)
| KeyError (msg : string)
| EOFError (msg : string).

(** [str(e)]: the message ([KeyError] carries the text it prints). *)
Definition exn_str (e : exn) : string :=
  match e with
  | ValueError msg => msg
  | TypeError msg => msg
  | IndexError msg => msg
  | KeyError msg => msg
  | EOFError msg => msg
  end.

Inductive result (A : Type) : Type :=
| Ok (a : A)
| Raise (e : exn).

Arguments Ok {A} a.
Arguments Raise {A} e.

Definition M (S A : Type) : Type := S -> result A * S.

Definition ret {S A : Type} (a : A) : M S A := fun s => (Ok a, s).

Definition bind {S A B : Type} (m : M S A) (k : A -> M S B) : M S B :=
  fun s =>
    match m s with
    | (Ok a, s') => k a s'
    | (Raise e, s') => (Raise e, s')
    end.

Definition raise {S A : Type} (e : exn) : M S A := fun s => (Raise e, s).

Definition get {S : Type} : M S S := fun s => (Ok s, s).

Definition put {S : Type} (s : S) : M S unit := fun _ => (Ok tt, s).

(** A pure computation that may raise, run inside a method. *)
Definition lift {S A : Type} (r : result A) : M S A := fun s => (r, s).

Declare Scope py_scope.
Delimit Scope py_scope with py.
Notation "x <- m ;; k" := (bind m (fun x => k))
  (at level 61, m at next level, right associativity) : py_scope.
Notation "m ;;; k" := (bind m (fun _ => k))
  (at level 61, right associativity) : py_scope.
Local Open Scope py_scope.

(** [for x in xs: acc = body x acc], the local [acc] threaded by hand. *)
Fixpoint for_loop {S A B : Type} (xs : list A) (body : A -> B -> M S B)
  (acc : B) : M S B :=
  match xs with
  | [] => ret acc
  | x :: rest => acc' <- body x acc ;; for_loop rest body acc'
  end.

(** ** Characters and strings *)

Definition newline : ascii := ascii_of_nat 10.

Definition is_digit (c : ascii) : bool :=
  let n := nat_of_ascii c in (48 <=? n)%nat && (n <=? 57)%nat.

(** [c.isspace()] for a code point below 256: what [split] and [strip]
    without an argument take for white space. *)
Definition is_space (c : ascii) : bool :=
  let n := nat_of_ascii c in
  ((9 <=? n)%nat && (n <=? 13)%nat) || ((28 <=? n)%nat && (n <=? 32)%nat)
  || (n =? 133)%nat || (n =? 160)%nat.

(** [c.lower()] for a code point below 256. *)
Definition lower_char (c : ascii) : ascii :=
  let n := nat_of_ascii c in
  if ((65 <=? n)%nat && (n <=? 90)%nat)
     || ((192 <=? n)%nat && (n <=? 222)%nat && negb (n =? 215)%nat)
  then ascii_of_nat (n + 32) else c.

Fixpoint lower (s : string) : string :=
  match s with
  | EmptyString => EmptyString
  | String c rest => String (lower_char c) (lower rest)
  end.

Fixpoint lstrip_chars (cs : list ascii) : list ascii :=
  match cs with
  | [] => []
  | c :: rest => if is_space c then lstrip_chars rest else cs
  end.

(** [s.strip()] *)
Definition strip (s : string) : string :=
  string_of_list_ascii
    (rev (lstrip_chars (rev (lstrip_chars (list_ascii_of_string s))))).

(** [s.split()]: the maximal runs of characters that are not white space;
    [cur] is the run being read. *)
Fixpoint split_from (s : string) (cur : option string) : list string :=
  match s with
  | EmptyString =>
      match cur with
      | Some w => [w]
      | None => []
      end
  | String c rest =>
      if is_space c
      then match cur with
           | Some w => w :: split_from rest None
           | None => split_from rest None
           end
      else split_from rest
             (Some (match cur with
                    | Some w => w ++ String c EmptyString
                    | None => String c EmptyString
                    end))
  end.

Definition split (s : string) : list string := split_from s None.

(** [str(n)] for an integer. *)
Definition int_str (n : Z) : string := NilZero.string_of_int (Z.to_int n).

(** [s.rjust(width, "0")]: the [%0<width>d] of [strftime] for a number that
    is not negative. *)
Definition zero_pad (width : nat) (s : string) : string :=
  string_of_list_ascii (repeat "0"%char (width - String.length s))
  ++ s.

(** [sep.join(xs)] *)
Fixpoint join (sep : string) (xs : list string) : string :=
  match xs with
  | [] => ""
  | [x] => x
  | x :: rest => x ++ sep ++ join sep rest
  end.

(** ** Fields *)

Record Name : Type := mkName { name_value : string }.

Record Phone : Type := mkPhone { phone_value : string }.

(** [\d{n}] at the start of [s]: the rest of [s] after [n] digits. *)
Fixpoint match_digits (n : nat) (s : string) : option string :=
  match n with
  | O => Some s
  | S n' =>
      match s with
      | String c rest => if is_digit c then match_digits n' rest else None
      | EmptyString => None
      end
  end.

(** [$] without [re.MULTILINE]: the end of the string, or just before a
    newline that is the last character of the string. *)
Definition at_dollar (s : string) : bool :=
  match s with
  | EmptyString => true
  | String c EmptyString => Ascii.eqb c newline
  | _ => false
  end.

(** [re.match(r"^\d{10}$", value)], as a truth value. *)
Definition phone_re_match (value : string) : bool :=
  match match_digits 10 value with
  | Some rest => at_dollar rest
  | None => false
  end.

Definition Phone_init (value : string) : result Phone :=
  if negb (phone_re_match value)
  then Raise (ValueError "Phone number must be 10 digits.")
  else Ok (mkPhone value).

(** What the specification calls a phone number: exactly ten characters,
    each a decimal digit. *)
Definition ten_digits (s : string) : Prop :=
  String.length s = 10%nat /\
  Forall (fun c => is_digit c = true) (list_ascii_of_string s).

(** ** Dates: the part of Python's [datetime] module the program uses *)

Record date : Type := mkdate { year : Z; month : Z; day : Z }.

Record datetime : Type := mkdatetime {
  date_part : date;
  hour : Z;
  minute : Z;
  second : Z;
  microsecond : Z
}.

(** [datetime.date()] *)
Definition datetime_date (dt : datetime) : date := date_part dt.

Definition MINYEAR : Z := 1.
Definition MAXYEAR : Z := 9999.

Definition is_leap (y : Z) : bool :=
  (y mod 4 =? 0) && (negb (y mod 100 =? 0) || (y mod 400 =? 0)).

Definition DAYS_IN_MONTH : list Z :=
  [-1; 31; 28; 31; 30; 31; 30; 31; 31; 30; 31; 30; 31].

Definition DAYS_BEFORE_MONTH : list Z :=
  [-1; 0; 31; 59; 90; 120; 151; 181; 212; 243; 273; 304; 334].

Definition days_in_month (y m : Z) : Z :=
  if (m =? 2) && is_leap y then 29 else nth (Z.to_nat m) DAYS_IN_MONTH 0.

Definition days_before_year (y : Z) : Z :=
  let y1 := y - 1 in y1 * 365 + y1 / 4 - y1 / 100 + y1 / 400.

Definition days_before_month (y m : Z) : Z :=
  nth (Z.to_nat m) DAYS_BEFORE_MONTH 0
  + (if (2 <? m) && is_leap y then 1 else 0).

Definition ymd2ord (y m d : Z) : Z :=
  days_before_year y + days_before_month y m + d.

(** [date.toordinal()]: 1 for 0001-01-01. *)
Definition toordinal (d : date) : Z := ymd2ord (year d) (month d) (day d).

(** [date.weekday()]: Monday is 0, Sunday is 6. *)
Definition weekday (d : date) : Z := (toordinal d + 6) mod 7.

(** [(a - b).days] *)
Definition days_between (a b : date) : Z := toordinal a - toordinal b.

(** The constructor [date(y, m, d)] with the checks of the field values;
    the messages are those of CPython's C implementation up to 3.13. *)
Definition date_new (y m d : Z) : result date :=
  if negb ((MINYEAR <=? y) && (y <=? MAXYEAR))
  then Raise (ValueError ("year " ++ int_str y ++ " is out of range"))
  else if negb ((1 <=? m) && (m <=? 12))
  then Raise (ValueError "month must be in 1..12")
  else if negb ((1 <=? d) && (d <=? days_in_month y m))
  then Raise (ValueError "day is out of range for month")
  else Ok (mkdate y m d).

(** [d.replace(year=y)] builds a new date from the changed fields, with the
    constructor's checks. *)
Definition date_replace_year (d : date) (y : Z) : result date :=
  date_new y (month d) (day d).

(** [calendar.day_name] in the default (English) locale. *)
Definition day_name : list string :=
  ["Monday"; "Tuesday"; "Wednesday"; "Thursday"; "Friday"; "Saturday";
   "Sunday"].

(** [x in xs] for a list of strings. *)
Definition str_in (x : string) (xs : list string) : bool :=
  existsb (String.eqb x) xs.

(** ** Values passed where the program tests a type or a truth value *)

Inductive pyobj : Type :=
| PyNone
| PyStr (s : string)
| PyDatetime (dt : datetime).

(** [bool(v)]; a [datetime] defines neither [__bool__] nor [__len__]. *)
Definition truthy (v : pyobj) : bool :=
  match v with
  | PyNone => false
  | PyStr s => negb (String.eqb s "")
  | PyDatetime _ => true
  end.

Record Birthday : Type := mkBirthday { birthday_value : datetime }.

Definition Birthday_init (value : pyobj) : result Birthday :=
  match value with
  | PyDatetime dt => Ok (mkBirthday dt)
  | _ => Raise (TypeError "Birthday must be a date.")
  end.

(** ** Record *)

Record Record_ : Type := mkRecord {
  name : Name;
  phones : list Phone;
  birthday : option Birthday
}.

Definition set_phones (self : Record_) (ps : list Phone) : Record_ :=
  mkRecord (name self) ps (birthday self).

Definition set_birthday (self : Record_) (b : option Birthday) : Record_ :=
  mkRecord (name self) (phones self) b.

Definition add_phone (phone : string) : M Record_ unit :=
  p <- lift (Phone_init phone) ;;
  self <- get ;;
  put (set_phones self (phones self ++ [p])%list).

(** The first [p] of the list with [p.value == phone]: the loops of
    [remove_phone] and [find_phone]. *)
Definition first_with_value (phone : string) (ps : list Phone)
  : option Phone :=
  List.find (fun p => String.eqb (phone_value p) phone) ps.

Definition Phone_eqb (p q : Phone) : bool :=
  String.eqb (phone_value p) (phone_value q).

(** [ps.remove(x)]: drops the first element equal to [x].  [Phone] defines
    no [__eq__], so Python compares identities; the argument is the first
    object with its value, which is also the first element equal to it by
    value, so both comparisons drop the same element.  [remove_phone] only
    calls it with an element of the list, where it cannot raise. *)
Fixpoint list_remove (x : Phone) (ps : list Phone) : list Phone :=
  match ps with
  | [] => []
  | p :: rest => if Phone_eqb p x then rest else p :: list_remove x rest
  end.

Definition remove_phone (phone : string) : M Record_ unit :=
  self <- get ;;
  match first_with_value phone (phones self) with
  | Some phone_to_remove =>
      put (set_phones self (list_remove phone_to_remove (phones self)))
  | None => ret tt
  end.

Definition edit_phone (old_phone new_phone : string) : M Record_ unit :=
  remove_phone old_phone ;;;
  add_phone new_phone.

Definition find_phone (phone : string) : M Record_ (option Phone) :=
  self <- get ;;
  ret (first_with_value phone (phones self)).

Definition add_birthday (value : pyobj) : M Record_ unit :=
  b <- lift (Birthday_init value) ;;
  self <- get ;;
  put (set_birthday self (Some b)).

(** [Record(name, birthday)]: an exception of [add_birthday] leaves the
    constructor, and the object under construction is lost. *)
Definition Record_init (name_ : string) (birthday_ : pyobj)
  : result Record_ :=
  let self := mkRecord (mkName name_) [] None in
  if truthy birthday_
  then match add_birthday birthday_ self with
       | (Ok _, self') => Ok self'
       | (Raise e, _) => Raise e
       end
  else Ok self.

(** [d.strftime("%Y-%m-%d")] and [d.strftime("%d.%m.%Y")].  [%d] and [%m]
    are two digits.  [%Y] is the year as the C library prints it: glibc,
    which is modelled here, prints it without padding (999 for the year
    999), other libraries pad it to four digits; from the year 1000 on
    all print the same four digits. *)
Definition strftime_ymd (d : date) : string :=
  int_str (year d) ++ "-" ++ zero_pad 2 (int_str (month d))
  ++ "-" ++ zero_pad 2 (int_str (day d)).

Definition strftime_dmy (d : date) : string :=
  zero_pad 2 (int_str (day d)) ++ "." ++ zero_pad 2 (int_str (month d))
  ++ "." ++ int_str (year d).

(** [Record.__str__] *)
Definition Record_str (self : Record_) : string :=
  let phones_str := join ", " (map phone_value (phones self)) in
  let birthday_str :=
    match birthday self with
    | Some b => ", birthday: " ++ strftime_ymd (date_part (birthday_value b))
    | None => ""
    end in
  "Contact name: " ++ name_value (name self) ++ ", phones: " ++ phones_str
  ++ birthday_str.

(** ** dict: an association list in insertion order, keys unique *)

Definition dict (V : Type) : Type := list (string * V).

Definition dict_keys {V : Type} (d : dict V) : list string := map fst d.

Definition dict_values {V : Type} (d : dict V) : list V := map snd d.

(** [d.get(k)] *)
Fixpoint dict_get {V : Type} (k : string) (d : dict V) : option V :=
  match d with
  | [] => None
  | (k', v) :: rest => if String.eqb k' k then Some v else dict_get k rest
  end.

(** [k in d] *)
Definition dict_contains {V : Type} (k : string) (d : dict V) : bool :=
  match dict_get k d with
  | Some _ => true
  | None => false
  end.

(** [d[k] = v]: the value of an existing key is replaced where the key
    stands, a new key goes to the end. *)
Fixpoint dict_setitem {V : Type} (k : string) (v : V) (d : dict V)
  : dict V :=
  match d with
  | [] => [(k, v)]
  | (k', v') :: rest =>
      if String.eqb k' k then (k', v) :: rest
      else (k', v') :: dict_setitem k v rest
  end.

(** [del d[k]] for a key of [d]. *)
Fixpoint dict_delitem {V : Type} (k : string) (d : dict V) : dict V :=
  match d with
  | [] => []
  | (k', v') :: rest =>
      if String.eqb k' k then rest else (k', v') :: dict_delitem k rest
  end.

(** The invariant of a Python [dict]: no key stands twice. *)
Definition dict_wf {V : Type} (d : dict V) : Prop := NoDup (dict_keys d).

(** How many entries stand under the key [k]. *)
Definition dict_count {V : Type} (k : string) (d : dict V) : nat :=
  List.length (filter (fun kv => String.eqb (fst kv) k) d).

(** [d[k].append(x)] on a [defaultdict(list)]: a missing key is first
    bound to the empty list. *)
Definition defaultdict_append (k : string) (x : string)
  (d : dict (list string)) : dict (list string) :=
  match dict_get k d with
  | Some l => dict_setitem k (l ++ [x])%list d
  | None => dict_setitem k [x] d
  end.

(** Reading [d[k]] in the returned mapping, the empty list for a label
    that was never bound. *)
Definition lookup_list (k : string) (d : dict (list string)) : list string :=
  match dict_get k d with
  | Some l => l
  | None => []
  end.

(** ** AddressBook *)

Definition AddressBook : Type := dict Record_.

Definition add_record (record : Record_) : M AddressBook unit :=
  data <- get ;;
  put (dict_setitem (name_value (name record)) record data).

Definition find (name_ : string) : M AddressBook (option Record_) :=
  data <- get ;;
  ret (dict_get name_ data).

Definition delete (name_ : string) : M AddressBook unit :=
  data <- get ;;
  if dict_contains name_ data
  then put (dict_delitem name_ data)
  else ret tt.

(** Lines 84 to 89 of [task1.py]: the birthday moved to this year, or to
    the next one when that date is already past, with its distance in days
    from [today].  Either [replace] may raise. *)
Definition next_occurrence (today birthday_ : date) : result (date * Z) :=
  match date_replace_year birthday_ (year today) with
  | Raise e => Raise e
  | Ok birthday_this_year =>
      let delta_days := days_between birthday_this_year today in
      if delta_days <? 0
      then
        match date_replace_year birthday_this_year (year today + 1) with
        | Raise e => Raise e
        | Ok birthday_next_year =>
            Ok (birthday_next_year, days_between birthday_next_year today)
        end
      else Ok (birthday_this_year, delta_days)
  end.

(** Lines 92 to 94: the name of the weekday, Monday for a weekend. *)
Definition week_label (d : date) : string :=
  let day_of_week := nth (Z.to_nat (weekday d)) day_name "" in
  if str_in day_of_week ["Saturday"; "Sunday"] then "Monday"
  else day_of_week.

(** The body of the loop of [get_birthdays_per_week] for one record. *)
Definition birthdays_step (today : date) (record : Record_)
  (birthdays : dict (list string)) : M AddressBook (dict (list string)) :=
  match birthday record with
  | Some b =>
      let name_ := name_value (name record) in
      let birthday_ := datetime_date (birthday_value b) in
      occ <- lift (next_occurrence today birthday_) ;;
      let '(birthday_this_year, delta_days) := occ in
      if (0 <=? delta_days) && (delta_days <? 7)
      then ret (defaultdict_append (week_label birthday_this_year) name_
                  birthdays)
      else ret birthdays
  | None => ret birthdays
  end.

Definition get_birthdays_per_week (today : date)
  : M AddressBook (dict (list string)) :=
  data <- get ;;
  for_loop (dict_values data) (birthdays_step today) [].

(** ** The command interpreter of [task2.py] *)

Module Bot.

(** The decorator [input_error]: the outcome of [func] with every exception
    turned into a string.  The state is the one [func] left. *)
Definition input_error {S : Type} (func : M S string) : M S string :=
  fun s =>
    match func s with
    | (Ok r, s') => (Ok r, s')
    | (Raise (IndexError msg), s') => (Ok ("Error: " ++ msg), s')
    | (Raise (ValueError msg), s') => (Ok ("Error: " ++ msg), s')
    | (Raise (KeyError msg), s') => (Ok ("Error: " ++ msg), s')
    | (Raise e, s') => (Ok ("Unexpected error: " ++ exn_str e), s')
    end.

(** [parse_input]: the command, [None] for a blank line, and the
    arguments.  The unpacking [cmd, *args = ...] raises on an empty list. *)
Definition parse_input (user_input : string)
  : result (option string * list string) :=
  if String.eqb (strip user_input) "" then Ok (None, [])
  else
    match split user_input with
    | cmd :: args => Ok (Some (lower (strip cmd)), args)
    | [] =>
        Raise (ValueError
                 "not enough values to unpack (expected at least 1, got 0)")
    end.

(** A method of a record that is a local of the handler, not yet in the
    book: an exception leaves the handler and the local is lost. *)
Definition on_local {A : Type} (m : M Record_ A) (record : Record_)
  : M AddressBook (A * Record_) :=
  match m record with
  | (Ok a, record') => ret (a, record')
  | (Raise e, _) => raise e
  end.

(** A method of the record the book holds under [key]: the handler has a
    reference to the object in the book, so what the method does to it is
    done in the book, also when the method raises. *)
Definition on_entry {A : Type} (key : string) (record : Record_)
  (m : M Record_ A) : M AddressBook A :=
  fun data =>
    let '(r, record') := m record in (r, dict_setitem key record' data).

Definition add_contact_body (args : list string) : M AddressBook string :=
  match args with
  | [name_; phone] =>
      let lower_case_name := lower name_ in
      record <- lift (Record_init lower_case_name PyNone) ;;
      r <- on_local (add_phone phone) record ;;
      add_record (snd r) ;;;
      ret "Contact added."
  | _ =>
      raise (ValueError
               "Invalid input. Please provide both name and phone number.")
  end.

Definition add_contact (args : list string) : M AddressBook string :=
  input_error (add_contact_body args).

(** [old_phone] is [None] for a record without phones; [remove_phone(None)]
    then runs its loop over the empty list and removes nothing, which
    leaves the [add_phone] of [edit_phone]. *)
Definition change_phone_body (args : list string) : M AddressBook string :=
  match args with
  | [name_; new_phone] =>
      let lower_case_name := lower name_ in
      found <- find lower_case_name ;;
      match found with
      | Some record =>
          match phones record with
          | p :: _ =>
              on_entry lower_case_name record
                (edit_phone (phone_value p) new_phone)
          | [] => on_entry lower_case_name record (add_phone new_phone)
          end ;;;
          ret ("Contact for " ++ name_ ++ " updated.")
      | None => ret "Contact not found."
      end
  | _ =>
      raise (ValueError
               "Invalid input. Please provide both name and phone number.")
  end.

Definition change_phone (args : list string) : M AddressBook string :=
  input_error (change_phone_body args).

Definition get_phone_body (args : list string) : M AddressBook string :=
  match args with
  | [] => raise (ValueError "Please provide a contact name.")
  | name_ :: _ =>
      let lower_case_name := lower name_ in
      found <- find lower_case_name ;;
      match found with
      | Some record =>
          match phones record with
          | p :: _ => ret (phone_value p)
          | [] => ret "Contact not found."
          end
      | None => ret "Contact not found."
      end
  end.

Definition get_phone (args : list string) : M AddressBook string :=
  input_error (get_phone_body args).

Definition show_all_contacts_body : M AddressBook string :=
  data <- get ;;
  match data with
  | [] => ret "No contacts saved."
  | _ => ret (join (String newline "") (map Record_str (dict_values data)))
  end.

Definition show_all_contacts : M AddressBook string :=
  input_error show_all_contacts_body.

(** The text before the first ["."] and the text after it. *)
Fixpoint split_at_dot (s : string) : option (string * string) :=
  match s with
  | EmptyString => None
  | String c rest =>
      if Ascii.eqb c "."%char then Some (EmptyString, rest)
      else match split_at_dot rest with
           | Some (a, b) => Some (String c a, b)
           | None => None
           end
  end.

Definition digit_value (c : ascii) : Z := Z.of_nat (nat_of_ascii c) - 48.

(** The group of [%d]: [3[0-1]|[1-2]\d|0[1-9]|[1-9]| [1-9]]. *)
Definition parse_day (tok : string) : option Z :=
  match tok with
  | String a (String b EmptyString) =>
      let x := digit_value a in
      let y := digit_value b in
      if Ascii.eqb a " "%char
      then if is_digit b && negb (y =? 0) then Some y else None
      else if is_digit a && is_digit b
      then if ((x =? 3) && (y <=? 1)) || (x =? 1) || (x =? 2)
              || ((x =? 0) && negb (y =? 0))
           then Some (10 * x + y) else None
      else None
  | String a EmptyString =>
      if is_digit a && negb (digit_value a =? 0) then Some (digit_value a)
      else None
  | _ => None
  end.

(** The group of [%m]: [1[0-2]|0[1-9]|[1-9]]. *)
Definition parse_month (tok : string) : option Z :=
  match tok with
  | String a (String b EmptyString) =>
      let x := digit_value a in
      let y := digit_value b in
      if is_digit a && is_digit b
      then if ((x =? 1) && (y <=? 2)) || ((x =? 0) && negb (y =? 0))
           then Some (10 * x + y) else None
      else None
  | String a EmptyString =>
      if is_digit a && negb (digit_value a =? 0) then Some (digit_value a)
      else None
  | _ => None
  end.

(** The group of [%Y]: four digits. *)
Definition parse_year (tok : string) : option Z :=
  match tok with
  | String a (String b (String c (String d EmptyString))) =>
      if is_digit a && is_digit b && is_digit c && is_digit d
      then Some (1000 * digit_value a + 100 * digit_value b
                 + 10 * digit_value c + digit_value d)
      else None
  | _ => None
  end.

(** [datetime.strptime(s, "%d.%m.%Y")]: the whole of [s] is a day, a
    month and a year of the shapes above with dots between them, and they
    are a date.  No group matches a dot, so the day is what stands before
    the first dot and the month what stands before the second. *)
Definition strptime_dmy (s : string) : result datetime :=
  let no_match := Raise (ValueError "time data does not match format") in
  match split_at_dot s with
  | None => no_match
  | Some (dtok, s1) =>
      match split_at_dot s1 with
      | None => no_match
      | Some (mtok, ytok) =>
          match parse_day dtok, parse_month mtok, parse_year ytok with
          | Some d, Some m, Some y =>
              match date_new y m d with
              | Ok dt => Ok (mkdatetime dt 0 0 0 0)
              | Raise e => Raise e
              end
          | _, _, _ => no_match
          end
      end
  end.

Definition add_birthday_body (args : list string) : M AddressBook string :=
  match args with
  | [name_; birthday_str] =>
      let lower_case_name := lower name_ in
      found <- find lower_case_name ;;
      match found with
      | None => ret "Contact not found."
      | Some record =>
          fun data =>
            match strptime_dmy birthday_str with
            | Raise (ValueError _) =>
                (Ok "Invalid date format. Use DD.MM.YYYY.", data)
            | Raise e => (Raise e, data)
            | Ok birthday_ =>
                match on_entry lower_case_name record
                        (add_birthday (PyDatetime birthday_)) data with
                | (Ok _, data') => (Ok "Birthday added.", data')
                | (Raise (ValueError _), data') =>
                    (Ok "Invalid date format. Use DD.MM.YYYY.", data')
                | (Raise e, data') => (Raise e, data')
                end
            end
      end
  | _ =>
      raise (ValueError
               "Please provide both the contact name and birthday in the format 'DD.MM.YYYY'.")
  end.

Definition add_birthday (args : list string) : M AddressBook string :=
  input_error (add_birthday_body args).

Definition show_birthday_body (args : list string) : M AddressBook string :=
  match args with
  | [] => raise (ValueError "Please provide a contact name.")
  | name_ :: _ =>
      let lower_case_name := lower name_ in
      found <- find lower_case_name ;;
      match found with
      | Some record =>
          match birthday record with
          | Some b => ret (strftime_dmy (date_part (birthday_value b)))
          | None => ret "Birthday not found for this contact."
          end
      | None => ret "Birthday not found for this contact."
      end
  end.

Definition show_birthday (args : list string) : M AddressBook string :=
  input_error (show_birthday_body args).

(** One turn of the loop of [main] after [input()] returned [user_input]:
    what it prints and how it goes on. *)
Inductive turn : Type :=
| Continue (printed : list string) (book : AddressBook)
| Break (printed : list string) (book : AddressBook)
| Escapes (e : exn) (book : AddressBook).

(** A handler wrapped by [input_error], printed. *)
Definition print_handler (h : M AddressBook string) (book : AddressBook)
  : turn :=
  match h book with
  | (Ok r, book') => Continue [r] book'
  | (Raise e, book') => Escapes e book'
  end.

Definition main_turn (today : date) (user_input : string)
  (book : AddressBook) : turn :=
  match parse_input user_input with
  | Raise e => Escapes e book
  | Ok (None, _) => Continue [] book
  | Ok (Some command, args) =>
      if str_in command ["close"; "exit"] then Break ["Good bye!"] book
      else if String.eqb command "hello"
      then Continue ["How can I help you?"] book
      else if String.eqb command "add"
      then print_handler (add_contact args) book
      else if String.eqb command "change"
      then print_handler (change_phone args) book
      else if String.eqb command "phone"
      then print_handler (get_phone args) book
      else if String.eqb command "all"
      then print_handler show_all_contacts book
      else if String.eqb command "add-birthday"
      then print_handler (add_birthday args) book
      else if String.eqb command "show-birthday"
      then print_handler (show_birthday args) book
      else if String.eqb command "birthdays"
      then
        match get_birthdays_per_week today book with
        | (Raise e, book') => Escapes e book'
        | (Ok [], book') => Continue ["No birthdays next week."] book'
        | (Ok birthdays_next_week, book') =>
            Continue
              (map (fun kv => fst kv ++ ": " ++ join ", " (snd kv))
                 birthdays_next_week)
              book'
        end
      else Continue ["Invalid command."] book
  end.

(** How a run of [main] ends: by the [break] of [close] or [exit], or by
    an exception that nothing catches. *)
Inductive run : Type :=
| Exited (printed : list string) (book : AddressBook)
| Crashed (e : exn) (printed : list string) (book : AddressBook).

(** The loop of [main] on a standard input that holds the lines [inputs]
    and then ends: [input()] returns the lines one by one, and raises
    [EOFError] when none is left, which nothing in [main] catches. *)
Fixpoint main_loop (today : date) (inputs : list string)
  (printed : list string) (book : AddressBook) : run :=
  match inputs with
  | [] => Crashed (EOFError "EOF when reading a line") printed book
  | user_input :: rest =>
      match main_turn today user_input book with
      | Continue out book' => main_loop today rest (printed ++ out)%list book'
      | Break out book' => Exited (printed ++ out)%list book'
      | Escapes e book' => Crashed e printed book'
      end
  end.

(** [main()] fed the lines [inputs] and then the end of the input, the
    clock reading [today]. *)
Definition main (today : date) (inputs : list string) : run :=
  main_loop today inputs ["Welcome to the assistant bot!"] [].

End Bot.

(** ** Notions the statements below are written with *)

(** How many phones of the list have the value [phone]. *)
Definition count_value (phone : string) (ps : list Phone) : nat :=
  List.length (filter (fun p => String.eqb (phone_value p) phone) ps).

(** No record of the book makes [replace] raise on the day [today]: the
    next occurrence of every birthday is defined. *)
Definition occurrences_defined (today : date) (book : AddressBook) : Prop :=
  forall key r b,
    In (key, r) book -> birthday r = Some b ->
    exists occ,
      next_occurrence today (datetime_date (birthday_value b)) = Ok occ.

(** A record with the birthday [y]-[m]-[d] and no phone. *)
Definition born (name_ : string) (y m d : Z) : Record_ :=
  mkRecord (mkName name_) []
    (Some (mkBirthday (mkdatetime (mkdate y m d) 0 0 0 0))).

(** A record with the given phones and no birthday. *)
Definition with_phones (name_ : string) (ps : list string) : Record_ :=
  mkRecord (mkName name_) (map mkPhone ps) None.

(** A date the constructor accepts: the year in 1..9999, the month in
    1..12, the day in the month. *)
Definition valid_date (d : date) : Prop :=
  date_new (year d) (month d) (day d) = Ok d.


(** The labels of the working days. *)
Definition working_days : list string :=
  ["Monday"; "Tuesday"; "Wednesday"; "Thursday"; "Friday"].

(** No character of the string is white space. *)
Definition no_space (w : string) : bool :=
  forallb (fun c => negb (is_space c)) (list_ascii_of_string w).

(** A word as [split] returns them: not empty, no white space in it. *)
Definition is_word (w : string) : Prop := w <> "" /\ no_space w = true.

(** What the interpreter keeps true of a record it holds under [key]. *)
Definition record_ok (key : string) (r : Record_) : Prop :=
  name_value (name r) = key /\
  (List.length (phones r) <= 1)%nat /\
  Forall (fun p => ten_digits (phone_value p)) (phones r) /\
  (forall b, birthday r = Some b ->
     valid_date (date_part (birthday_value b)) /\
     birthday_value b = mkdatetime (date_part (birthday_value b)) 0 0 0 0).

(** What the interpreter keeps true of its book. *)
Definition bot_inv (book : AddressBook) : Prop :=
  dict_wf book /\
  forall key r,
    In (key, r) book -> is_word key /\ lower key = key /\ record_ok key r.

(** The book of a run of [main]. *)
Definition run_book (r : Bot.run) : AddressBook :=
  match r with
  | Bot.Exited _ book => book
  | Bot.Crashed _ _ book => book
  end.

(** Some record of the book has a birthday on a February 29. *)
Definition has_leap_day_birthday (book : AddressBook) : bool :=
  existsb
    (fun kv =>
       match birthday (snd kv) with
       | Some b =>
           (month (datetime_date (birthday_value b)) =? 2)
           && (day (datetime_date (birthday_value b)) =? 29)
       | None => false
       end)
    book.

(** No character of the string is a dot. *)
Definition no_dot (s : string) : bool :=
  forallb (fun c => negb (Ascii.eqb c "."%char)) (list_ascii_of_string s).

(** The field [n], printed by [strftime] padded to [width] digits, is
    [len] characters, none of them a dot, and is read back as [n] by the
    parser [parse] of [strptime]. *)
Definition field_reads_back (width len : nat) (parse : string -> option Z)
  (n : Z) : bool :=
  no_dot (zero_pad width (int_str n))
  && (String.length (zero_pad width (int_str n)) =? len)%nat
  && match parse (zero_pad width (int_str n)) with
     | Some v => v =? n
     | None => false
     end.

(** The book a turn of the loop leaves. *)
Definition turn_book (t : Bot.turn) : AddressBook :=
  match t with
  | Bot.Continue _ book => book
  | Bot.Break _ book => book
  | Bot.Escapes _ book => book
  end.

(** ** The script at the end of [task1.py] *)

(** Lines 99 to 106 of [task1.py], run on the day [today]: a book with
    John, born 1990-12-19, and the lines printed for the week. *)
Definition task1_script (today : date) : M AddressBook (list string) :=
  john_record <-
    lift (Record_init "John"
            (PyDatetime (mkdatetime (mkdate 1990 12 19) 0 0 0 0))) ;;
  r <- Bot.on_local (add_phone "1234567890") john_record ;;
  add_record (snd r) ;;;
  birthdays_next_week <- get_birthdays_per_week today ;;
  ret (map (fun kv => fst kv ++ ": " ++ join ", " (snd kv))
         birthdays_next_week).

(** The reference date is one of December 13 to 19. *)
Definition week_before_dec_19 (today : date) : bool :=
  (month today =? 12) && (13 <=? day today) && (day today <=? 19).

(** The first word of the line is [close] or [exit], in any letter
    case. *)
Definition is_exit_line (user_input : string) : bool :=
  match split user_input with
  | cmd :: _ => str_in (lower cmd) ["close"; "exit"]
  | [] => false
  end.



(** * Properties *)

(** ** The monad and the loop *)

Section Loop.
Context {S A B : Type}.
Variable body : A -> B -> M S B.

Lemma for_loop_cons_Ok (x : A) (xs : list A) (acc res : B) (s s' : S) :
  for_loop (x :: xs) body acc s = (Ok res, s') ->
  exists acc' s1,
    body x acc s = (Ok acc', s1) /\
    for_loop xs body acc' s1 = (Ok res, s').
Proof.
  simpl. unfold bind.
  destruct (body x acc s) as [[acc' | e] s1]; intros H.
  - exists acc', s1. split; [reflexivity | exact H].
  - discriminate H.
Qed.

(** A loop whose body leaves the state alone leaves it alone, whether it
    ends or raises. *)
Lemma for_loop_frame :
  (forall x acc s, snd (body x acc s) = s) ->
  forall xs acc s, snd (for_loop xs body acc s) = s.
Proof.
  intros Hbody xs.
  induction xs as [| x xs IH]; intros acc s; simpl.
  - reflexivity.
  - unfold bind. specialize (Hbody x acc s).
    destruct (body x acc s) as [[acc' | e] s1]; simpl in Hbody; subst s1.
    + apply IH.
    + reflexivity.
Qed.

(** A property of the accumulator that every turn of the body keeps is
    kept by the loop. *)
Lemma for_loop_preserves (P : B -> Prop) :
  (forall x acc acc' s s',
      body x acc s = (Ok acc', s') -> P acc -> P acc') ->
  forall xs acc res s s',
    for_loop xs body acc s = (Ok res, s') -> P acc -> P res.
Proof.
  intros Hbody xs.
  induction xs as [| x xs IH]; intros acc res s s' Hrun Hacc.
  - simpl in Hrun. unfold ret in Hrun. congruence.
  - apply for_loop_cons_Ok in Hrun.
    destruct Hrun as (acc' & s1 & Hx & Hrest).
    eapply IH; [exact Hrest |]. eapply Hbody; eassumption.
Qed.
End Loop.

(** ** dict *)

Section Dict.
Context {V : Type}.
Implicit Types (d : dict V) (k : string) (v : V).

Lemma dict_get_setitem_same k v d :
  dict_get k (dict_setitem k v d) = Some v.
Proof.
  induction d as [| [k' v'] d IH]; simpl.
  - rewrite String.eqb_refl. reflexivity.
  - destruct (String.eqb k' k) eqn:E; simpl; rewrite E; auto.
Qed.

Lemma dict_get_setitem_other k k' v d :
  k <> k' -> dict_get k (dict_setitem k' v d) = dict_get k d.
Proof.
  intros Hne.
  induction d as [| [k0 v0] d IH]; simpl.
  - destruct (String.eqb_spec k' k); [congruence | reflexivity].
  - destruct (String.eqb_spec k0 k'); simpl.
    + subst k0. destruct (String.eqb_spec k' k); [congruence | reflexivity].
    + destruct (String.eqb_spec k0 k); [reflexivity | exact IH].
Qed.

Lemma dict_get_None_keys k d :
  dict_get k d = None <-> ~ In k (dict_keys d).
Proof.
  induction d as [| [k' v'] d IH]; simpl.
  - tauto.
  - destruct (String.eqb_spec k' k).
    + split; [discriminate | intros H; exfalso; apply H; auto].
    + rewrite IH. tauto.
Qed.

Lemma dict_contains_keys k d :
  dict_contains k d = true <-> In k (dict_keys d).
Proof.
  unfold dict_contains.
  destruct (dict_get k d) eqn:E.
  - split; [intros _ | reflexivity].
    destruct (in_dec string_dec k (dict_keys d)) as [Hin | Hout]; auto.
    apply dict_get_None_keys in Hout. congruence.
  - split; [discriminate |]. intros Hin.
    apply dict_get_None_keys in E. contradiction.
Qed.

Lemma dict_count_absent k d :
  ~ In k (dict_keys d) -> dict_count k d = 0%nat.
Proof.
  unfold dict_count.
  induction d as [| [k' v'] d IH]; simpl; intros Hout.
  - reflexivity.
  - destruct (String.eqb_spec k' k); [exfalso; auto |].
    apply IH. tauto.
Qed.

Lemma dict_keys_setitem_present k v d :
  In k (dict_keys d) -> dict_keys (dict_setitem k v d) = dict_keys d.
Proof.
  induction d as [| [k' v'] d IH]; simpl; intros Hin.
  - contradiction.
  - destruct (String.eqb_spec k' k); simpl; [reflexivity |].
    f_equal. apply IH. destruct Hin; [contradiction | assumption].
Qed.

Lemma dict_keys_setitem_absent k v d :
  ~ In k (dict_keys d) ->
  dict_keys (dict_setitem k v d) = (dict_keys d ++ [k])%list.
Proof.
  induction d as [| [k' v'] d IH]; simpl; intros Hout.
  - reflexivity.
  - destruct (String.eqb_spec k' k); [exfalso; auto |].
    simpl. f_equal. apply IH. tauto.
Qed.

(** [d[k] = v] keeps the keys apart. *)
Lemma dict_setitem_wf k v d : dict_wf d -> dict_wf (dict_setitem k v d).
Proof.
  unfold dict_wf. intros Hwf.
  destruct (in_dec string_dec k (dict_keys d)) as [Hin | Hout].
  - rewrite dict_keys_setitem_present; assumption.
  - rewrite dict_keys_setitem_absent by assumption.
    apply NoDup_app; [assumption | repeat constructor; simpl; tauto |].
    intros x Hx [Hk | []]. subst x. contradiction.
Qed.

Lemma dict_delitem_wf k d : dict_wf d -> dict_wf (dict_delitem k d).
Proof.
  unfold dict_wf.
  induction d as [| [k' v'] d IH]; simpl; intros Hwf.
  - constructor.
  - inversion Hwf as [| ? ? Hout Hrest]; subst.
    destruct (String.eqb_spec k' k); [assumption |].
    simpl. constructor; [| auto].
    intros Hin. apply Hout. clear - Hin.
    induction d as [| [k0 v0] d IHd]; simpl in *; [assumption |].
    destruct (String.eqb k0 k); simpl in *; tauto.
Qed.

(** After [d[k] = v] on a well-formed [d], one entry stands under [k]. *)
Lemma dict_count_setitem k v d :
  dict_wf d -> dict_count k (dict_setitem k v d) = 1%nat.
Proof.
  unfold dict_wf, dict_count.
  induction d as [| [k' v'] d IH]; simpl; intros Hwf.
  - rewrite String.eqb_refl. reflexivity.
  - inversion Hwf as [| ? ? Hout Hrest]; subst.
    destruct (String.eqb_spec k' k); simpl.
    + subst k'. rewrite String.eqb_refl. simpl. f_equal.
      apply (dict_count_absent k d Hout).
    + destruct (String.eqb_spec k' k); [contradiction |]. auto.
Qed.

Lemma dict_delitem_absent k d :
  ~ In k (dict_keys d) -> dict_delitem k d = d.
Proof.
  induction d as [| [k' v'] d IH]; simpl; intros Hout.
  - reflexivity.
  - destruct (String.eqb_spec k' k); [exfalso; auto |].
    f_equal. apply IH. tauto.
Qed.
End Dict.

(** ** AddressBook: add_record, find, delete *)

Lemma empty_book_wf : dict_wf ([] : AddressBook).
Proof. constructor. Qed.

Lemma add_record_wf (record : Record_) (book : AddressBook) :
  dict_wf book -> dict_wf (snd (add_record record book)).
Proof. intros Hwf. simpl. apply dict_setitem_wf. exact Hwf. Qed.

Lemma delete_wf (name_ : string) (book : AddressBook) :
  dict_wf book -> dict_wf (snd (delete name_ book)).
Proof.
  intros Hwf. unfold delete, bind, get.
  destruct (dict_contains name_ book); simpl; [| exact Hwf].
  apply dict_delitem_wf. exact Hwf.
Qed.

(** C8.  Adding [r1] and then [r2], two records of the same name, leaves
    one entry under that name, and [find] of the name returns [r2]:
    the last write wins. *)
Theorem add_record_twice_last_wins
  (book : AddressBook) (r1 r2 : Record_) :
  dict_wf book ->
  name_value (name r1) = name_value (name r2) ->
  exists book2,
    (add_record r1 ;;; add_record r2) book = (Ok tt, book2) /\
    dict_count (name_value (name r2)) book2 = 1%nat /\
    find (name_value (name r2)) book2 = (Ok (Some r2), book2) /\
    dict_wf book2.
Proof.
  intros Hwf Hname.
  exists (dict_setitem (name_value (name r2)) r2
            (dict_setitem (name_value (name r1)) r1 book)).
  assert (Hwf1 : dict_wf (dict_setitem (name_value (name r1)) r1 book))
    by (apply dict_setitem_wf; exact Hwf).
  split; [reflexivity |]. split; [| split].
  - apply dict_count_setitem. exact Hwf1.
  - unfold find, bind, get, ret. rewrite dict_get_setitem_same. reflexivity.
  - apply dict_setitem_wf. exact Hwf1.
Qed.

Lemma add_record_twice_last_wins_witness :
  exists book2,
    (add_record (with_phones "ann" ["1111111111"]) ;;;
     add_record (with_phones "ann" ["2222222222"]))
      [("bob", with_phones "bob" []); ("ann", with_phones "ann" [])]
    = (Ok tt, book2) /\
    dict_count "ann" book2 = 1%nat /\
    find "ann" book2 = (Ok (Some (with_phones "ann" ["2222222222"])), book2) /\
    dict_wf book2.
Proof.
  apply (add_record_twice_last_wins
           [("bob", with_phones "bob" []); ("ann", with_phones "ann" [])]
           (with_phones "ann" ["1111111111"])
           (with_phones "ann" ["2222222222"])).
  - unfold dict_wf. simpl. repeat constructor; simpl.
    + intros [H | []]. discriminate H.
    + tauto.
  - reflexivity.
Defined.

(** C9.  [delete] of a name that is no key of the book raises nothing and
    returns the book as it was. *)
Theorem delete_absent_noop (book : AddressBook) (name_ : string) :
  ~ In name_ (dict_keys book) ->
  delete name_ book = (Ok tt, book).
Proof.
  intros Hout. unfold delete, bind, get.
  destruct (dict_contains name_ book) eqn:E.
  - apply dict_contains_keys in E. contradiction.
  - reflexivity.
Qed.

Lemma delete_absent_noop_witness :
  delete "carl" [("bob", with_phones "bob" []); ("ann", born "ann" 1990 6 15)]
  = (Ok tt, [("bob", with_phones "bob" []); ("ann", born "ann" 1990 6 15)]).
Proof.
  apply (delete_absent_noop
           [("bob", with_phones "bob" []); ("ann", born "ann" 1990 6 15)]
           "carl").
  simpl. intros [H | [H | []]]; discriminate H.
Defined.

(** ** get_birthdays_per_week *)

Lemma birthdays_step_frame (today : date) (record : Record_)
  (birthdays : dict (list string)) (book : AddressBook) :
  snd (birthdays_step today record birthdays book) = book.
Proof.
  unfold birthdays_step.
  destruct (birthday record) as [b |]; [| reflexivity].
  unfold bind, lift.
  destruct (next_occurrence today (datetime_date (birthday_value b)))
    as [[d delta] | e]; [| reflexivity].
  destruct ((0 <=? delta) && (delta <? 7)); reflexivity.
Qed.

(** C10.  [get_birthdays_per_week] only reads: whether it returns or
    raises, the book after the call is the book before it, with every key
    and every record (name, phones, birthday) as they were. *)
Theorem get_birthdays_per_week_frame (today : date) (book : AddressBook) :
  snd (get_birthdays_per_week today book) = book.
Proof.
  unfold get_birthdays_per_week, bind, get.
  apply for_loop_frame. intros x acc s. apply birthdays_step_frame.
Qed.

Lemma lookup_list_append_same (k x : string) (d : dict (list string)) :
  In x (lookup_list k (defaultdict_append k x d)).
Proof.
  unfold lookup_list, defaultdict_append.
  destruct (dict_get k d) as [l |]; rewrite dict_get_setitem_same.
  - apply in_or_app. right. left. reflexivity.
  - left. reflexivity.
Qed.

Lemma lookup_list_append_mono (k k' x n : string) (d : dict (list string)) :
  In n (lookup_list k d) ->
  In n (lookup_list k (defaultdict_append k' x d)).
Proof.
  intros Hin.
  destruct (string_dec k k') as [-> | Hne].
  - unfold lookup_list, defaultdict_append in *.
    destruct (dict_get k' d) as [l |]; rewrite dict_get_setitem_same.
    + apply in_or_app. left. exact Hin.
    + contradiction.
  - unfold lookup_list, defaultdict_append in *.
    destruct (dict_get k' d) as [l |];
      rewrite dict_get_setitem_other by exact Hne; exact Hin.
Qed.

(** The weekday is one of seven, and the label of a Saturday or a Sunday
    is that of a Monday. *)
Lemma week_label_cases (d : date) :
  match weekday d with
  | 0 => week_label d = "Monday"
  | 1 => week_label d = "Tuesday"
  | 2 => week_label d = "Wednesday"
  | 3 => week_label d = "Thursday"
  | 4 => week_label d = "Friday"
  | 5 => week_label d = "Monday"
  | 6 => week_label d = "Monday"
  | _ => False
  end.
Proof.
  unfold week_label.
  assert (H : 0 <= weekday d < 7) by (apply Z.mod_pos_bound; lia).
  destruct (weekday d) as [| p | p]; try lia; [reflexivity |].
  do 3 (destruct p as [p | p |]; try lia; try reflexivity).
Qed.

Section Week.
Variable today : date.

(** A record whose next birthday is at most six days away is appended
    under the label of that day. *)
Lemma birthdays_step_listed (r : Record_) (b : Birthday) (d : date)
  (delta : Z) (acc : dict (list string)) (s : AddressBook) :
  birthday r = Some b ->
  next_occurrence today (datetime_date (birthday_value b)) = Ok (d, delta) ->
  0 <= delta <= 6 ->
  birthdays_step today r acc s
  = (Ok (defaultdict_append (week_label d) (name_value (name r)) acc), s).
Proof.
  intros Hb Hocc Hdelta. unfold birthdays_step, bind, lift.
  rewrite Hb, Hocc.
  replace ((0 <=? delta) && (delta <? 7)) with true; [reflexivity |].
  symmetry. apply andb_true_iff. split; [apply Z.leb_le | apply Z.ltb_lt]; lia.
Qed.

Lemma birthdays_step_mono (r : Record_) (acc acc' : dict (list string))
  (s s' : AddressBook) (k n : string) :
  birthdays_step today r acc s = (Ok acc', s') ->
  In n (lookup_list k acc) -> In n (lookup_list k acc').
Proof.
  unfold birthdays_step, bind, lift, ret.
  destruct (birthday r) as [b |]; [| congruence].
  destruct (next_occurrence today (datetime_date (birthday_value b)))
    as [[d delta] | e]; [| discriminate].
  destruct ((0 <=? delta) && (delta <? 7)); intros H Hin.
  - injection H as <- _. apply lookup_list_append_mono. exact Hin.
  - congruence.
Qed.

Lemma birthdays_loop_listed (xs : list Record_) :
  forall (acc res : dict (list string)) (s s' : AddressBook),
    for_loop xs (birthdays_step today) acc s = (Ok res, s') ->
    forall r b d delta,
      In r xs -> birthday r = Some b ->
      next_occurrence today (datetime_date (birthday_value b))
      = Ok (d, delta) ->
      0 <= delta <= 6 ->
      In (name_value (name r)) (lookup_list (week_label d) res).
Proof.
  induction xs as [| x xs IH]; intros acc res s s' Hrun r b d delta Hin
    Hb Hocc Hdelta.
  - contradiction.
  - apply for_loop_cons_Ok in Hrun.
    destruct Hrun as (acc' & s1 & Hx & Hrest).
    destruct Hin as [-> | Hin].
    + rewrite (birthdays_step_listed r b d delta acc s Hb Hocc Hdelta) in Hx.
      injection Hx as <- <-.
      apply (for_loop_preserves (birthdays_step today)
               (fun m => In (name_value (name r))
                           (lookup_list (week_label d) m)))
        with (1 := fun y a a' t t' Hy =>
                     birthdays_step_mono y a a' t t' _ _ Hy)
             (2 := Hrest).
      apply lookup_list_append_same.
    + eapply IH; eassumption.
Qed.

(** The loop returns when no record makes [replace] raise. *)
Lemma birthdays_loop_returns (xs : list Record_) :
  (forall r b, In r xs -> birthday r = Some b ->
     exists occ,
       next_occurrence today (datetime_date (birthday_value b)) = Ok occ) ->
  forall (acc : dict (list string)) (s : AddressBook),
  exists res, for_loop xs (birthdays_step today) acc s = (Ok res, s).
Proof.
  induction xs as [| x xs IH]; intros Hdef acc s; simpl.
  - exists acc. reflexivity.
  - assert (Hx : exists acc', birthdays_step today x acc s = (Ok acc', s)).
    { unfold birthdays_step, bind, lift, ret.
      destruct (birthday x) as [b |] eqn:Hb; [| eauto].
      destruct (Hdef x b (or_introl eq_refl) Hb) as [[d delta] Hocc].
      rewrite Hocc. destruct ((0 <=? delta) && (delta <? 7)); eauto. }
    destruct Hx as [acc' Hx]. unfold bind at 1. rewrite Hx.
    apply IH. intros r b Hin. apply Hdef. right. exact Hin.
Qed.

(** The loop raises when some record makes [replace] raise. *)
Lemma birthdays_loop_raises (xs : list Record_) (r : Record_)
  (b : Birthday) (e : exn) :
  In r xs -> birthday r = Some b ->
  next_occurrence today (datetime_date (birthday_value b)) = Raise e ->
  forall (acc : dict (list string)) (s : AddressBook),
  exists e', for_loop xs (birthdays_step today) acc s = (Raise e', s).
Proof.
  intros Hin Hb Hocc.
  induction xs as [| x xs IH]; intros acc s; [contradiction |].
  simpl. unfold bind at 1.
  pose proof (birthdays_step_frame today x acc s) as Hs.
  destruct (birthdays_step today x acc s) as [[acc' | e'] s1] eqn:Hx;
    simpl in Hs; subst s1.
  - destruct Hin as [-> | Hin]; [| apply IH; exact Hin].
    unfold birthdays_step, bind, lift in Hx. rewrite Hb, Hocc in Hx.
    discriminate Hx.
  - exists e'. reflexivity.
Qed.
End Week.

Lemma in_book_in_values (key : string) (r : Record_) (book : AddressBook) :
  In (key, r) book -> In r (dict_values book).
Proof. intros H. apply (in_map snd) in H. exact H. Qed.

Lemma get_birthdays_per_week_returns (today : date) (book : AddressBook) :
  occurrences_defined today book ->
  exists res, get_birthdays_per_week today book = (Ok res, book).
Proof.
  intros Hdef. unfold get_birthdays_per_week, bind, get.
  apply birthdays_loop_returns. intros r b Hin Hb.
  apply in_map_iff in Hin. destruct Hin as ([key r'] & Heq & Hin).
  simpl in Heq. subst r'. eapply Hdef; eassumption.
Qed.

Lemma get_birthdays_per_week_listed (today : date) (book : AddressBook)
  (res : dict (list string)) (book' : AddressBook) :
  get_birthdays_per_week today book = (Ok res, book') ->
  forall key r b d delta,
    In (key, r) book -> birthday r = Some b ->
    next_occurrence today (datetime_date (birthday_value b)) = Ok (d, delta) ->
    0 <= delta <= 6 ->
    In (name_value (name r)) (lookup_list (week_label d) res).
Proof.
  unfold get_birthdays_per_week, bind, get. intros Hrun key r b d delta Hin.
  eapply birthdays_loop_listed; [exact Hrun |].
  eapply in_book_in_values. exact Hin.
Qed.

(** [replace(year=...)] reads the month and the day only. *)
Lemma next_occurrence_month_day (today bd : date) (m d : Z) :
  month bd = m -> day bd = d ->
  next_occurrence today bd = next_occurrence today (mkdate 1 m d).
Proof.
  intros <- <-. destruct bd as [y m d]. reflexivity.
Qed.






(** C2.  When the birthday moved to the reference year falls before the
    reference date, the date and the distance are computed again with the
    next year.  With the reference date 2024-12-31 and a birthday on
    01-02 the date is 2025-01-02 (a Thursday) and the distance 2, and the
    contact is in the result. *)
Theorem passed_birthday_moves_to_next_year :
  (forall today bd this_year,
      date_replace_year bd (year today) = Ok this_year ->
      days_between this_year today < 0 ->
      next_occurrence today bd
      = match date_replace_year this_year (year today + 1) with
        | Ok next_year => Ok (next_year, days_between next_year today)
        | Raise e => Raise e
        end) /\
  (forall bd,
      month bd = 1 -> day bd = 2 ->
      date_replace_year bd 2024 = Ok (mkdate 2024 1 2) /\
      days_between (mkdate 2024 1 2) (mkdate 2024 12 31) < 0 /\
      next_occurrence (mkdate 2024 12 31) bd = Ok (mkdate 2025 1 2, 2)) /\
  (forall book,
      occurrences_defined (mkdate 2024 12 31) book ->
      exists res,
        get_birthdays_per_week (mkdate 2024 12 31) book = (Ok res, book) /\
        forall key r b,
          In (key, r) book -> birthday r = Some b ->
          month (datetime_date (birthday_value b)) = 1 ->
          day (datetime_date (birthday_value b)) = 2 ->
          In (name_value (name r)) (lookup_list "Thursday" res)).
Proof.
  split; [| split].
  - intros today bd this_year Hrep Hlt. unfold next_occurrence.
    rewrite Hrep. apply Z.ltb_lt in Hlt. rewrite Hlt.
    destruct (date_replace_year this_year (year today + 1)); reflexivity.
  - intros [y m d]; simpl; intros -> ->. repeat split.
  - intros book Hdef.
    destruct (get_birthdays_per_week_returns _ book Hdef) as [res Hrun].
    exists res. split; [exact Hrun |].
    intros key r b Hin Hb Hm Hd.
    change "Thursday" with (week_label (mkdate 2025 1 2)).
    apply (get_birthdays_per_week_listed _ book res book Hrun key r b
             (mkdate 2025 1 2) 2 Hin Hb); [| lia].
    rewrite (next_occurrence_month_day _ _ 1 2 Hm Hd). reflexivity.
Qed.

Lemma passed_birthday_moves_to_next_year_witness :
  next_occurrence (mkdate 2025 3 10) (mkdate 1990 3 4)
  = Ok (mkdate 2026 3 4, 359) /\
  exists res,
    get_birthdays_per_week (mkdate 2024 12 31) [("ann", born "ann" 1990 1 2)]
    = (Ok res, [("ann", born "ann" 1990 1 2)]) /\
    In "ann" (lookup_list "Thursday" res).
Proof.
  destruct passed_birthday_moves_to_next_year as (Hgen & _ & Hbook).
  split.
  - rewrite (Hgen (mkdate 2025 3 10) (mkdate 1990 3 4) (mkdate 2025 3 4));
      [reflexivity | reflexivity | reflexivity].
  - destruct (Hbook [("ann", born "ann" 1990 1 2)]) as (res & Hrun & Hin).
    + intros key r b [H | []] Hb. injection H as <- <-.
      injection Hb as <-. eexists. vm_compute. reflexivity.
    + exists res. split; [exact Hrun |].
      apply (Hin "ann" (born "ann" 1990 1 2)
               (mkBirthday (mkdatetime (mkdate 1990 1 2) 0 0 0 0)));
        [left; reflexivity | reflexivity | reflexivity | reflexivity].
Defined.

(** A birthday on February 29 makes the call raise in every reference
    year that is not a leap year: [replace] finds no such day. *)
Lemma leap_day_birthday_raises (today : date) (book : AddressBook)
  (key : string) (r : Record_) (b : Birthday) :
  In (key, r) book -> birthday r = Some b ->
  month (datetime_date (birthday_value b)) = 2 ->
  day (datetime_date (birthday_value b)) = 29 ->
  is_leap (year today) = false ->
  exists e, get_birthdays_per_week today book = (Raise e, book).
Proof.
  intros Hin Hb Hm Hd Hleap.
  assert (Hocc : exists e,
             next_occurrence today (datetime_date (birthday_value b))
             = Raise e).
  { unfold next_occurrence, date_replace_year, date_new.
    rewrite Hm, Hd. unfold days_in_month. rewrite Hleap. simpl.
    destruct (negb ((MINYEAR <=? year today) && (year today <=? MAXYEAR)));
      eauto. }
  destruct Hocc as [e Hocc].
  unfold get_birthdays_per_week, bind, get.
  eapply birthdays_loop_raises; [| exact Hb | exact Hocc].
  eapply in_book_in_values. exact Hin.
Qed.

(** C3.  The claim fails on the code: with a record born on 2000-02-29
    and the reference date 2025-06-10, [get_birthdays_per_week] raises
    [ValueError] from [replace(year=2025)]. *)
Theorem leap_day_birthday_crashes :
  get_birthdays_per_week (mkdate 2025 6 10) [("ann", born "ann" 2000 2 29)]
  = (Raise (ValueError "day is out of range for month"),
     [("ann", born "ann" 2000 2 29)]).
Proof. reflexivity. Qed.

(** ** Phone *)

Lemma match_digits_sound (n : nat) :
  forall s rest,
    match_digits n s = Some rest ->
    exists p,
      s = p ++ rest /\ String.length p = n /\
      Forall (fun c => is_digit c = true) (list_ascii_of_string p).
Proof.
  induction n as [| n IH]; intros s rest H; simpl in H.
  - injection H as <-. exists "". repeat split. constructor.
  - destruct s as [| c s]; [discriminate |].
    destruct (is_digit c) eqn:Hc; [| discriminate].
    destruct (IH s rest H) as (p & -> & Hlen & Hall).
    exists (String c p). simpl. repeat split; [congruence |].
    constructor; assumption.
Qed.

Lemma match_digits_complete (p rest : string) :
  Forall (fun c => is_digit c = true) (list_ascii_of_string p) ->
  match_digits (String.length p) (p ++ rest) = Some rest.
Proof.
  induction p as [| c p IH]; simpl; intros Hall.
  - reflexivity.
  - inversion Hall as [| ? ? Hc Hrest]; subst. rewrite Hc. auto.
Qed.

Lemma append_empty_r (s : string) : s ++ "" = s.
Proof. induction s as [| c s IH]; simpl; congruence. Qed.

(** Ten digits are a phone number. *)
Lemma ten_digits_Phone_init (s : string) :
  ten_digits s -> Phone_init s = Ok (mkPhone s).
Proof.
  intros [Hlen Hall]. unfold Phone_init, phone_re_match.
  pose proof (match_digits_complete s "" Hall) as H.
  rewrite Hlen, append_empty_r in H. rewrite H. reflexivity.
Qed.

(** What [Phone] accepts: ten digits, or ten digits and a newline. *)
Lemma Phone_init_Ok_inv (s : string) (p : Phone) :
  Phone_init s = Ok p ->
  p = mkPhone s /\
  (ten_digits s \/
   exists t, s = t ++ String newline "" /\ ten_digits t).
Proof.
  unfold Phone_init, phone_re_match.
  destruct (match_digits 10 s) as [rest |] eqn:Hm; [| discriminate].
  destruct (at_dollar rest) eqn:Hd; [| discriminate].
  simpl. intros H. injection H as <-. split; [reflexivity |].
  destruct (match_digits_sound 10 s rest Hm) as (t & -> & Hlen & Hall).
  destruct rest as [| c [| c' rest]]; simpl in Hd; [| | discriminate].
  - left. rewrite append_empty_r. split; assumption.
  - right. exists t. apply Ascii.eqb_eq in Hd. subst c.
    split; [reflexivity | split; assumption].
Qed.

(** C4.  The claim fails on the code: ["1234567890\n"] has eleven
    characters, the last of them no digit, and [Phone] accepts it, the
    newline kept in the value: [$] also matches before a final newline. *)
Theorem Phone_init_accepts_trailing_newline :
  Phone_init ("1234567890" ++ String newline "")
  = Ok (mkPhone ("1234567890" ++ String newline "")) /\
  String.length ("1234567890" ++ String newline "") = 11%nat /\
  ~ ten_digits ("1234567890" ++ String newline "").
Proof.
  split; [reflexivity |]. split; [reflexivity |].
  intros [Hlen _]. discriminate Hlen.
Qed.

(** ** Record: remove_phone, edit_phone, find_phone *)

Lemma first_with_value_eq (v : string) (ps : list Phone) (p : Phone) :
  first_with_value v ps = Some p -> p = mkPhone v.
Proof.
  unfold first_with_value. intros H. apply find_some in H.
  destruct H as [_ H]. apply String.eqb_eq in H.
  destruct p as [w]. simpl in H. congruence.
Qed.

Lemma first_with_value_None (v : string) (ps : list Phone) :
  first_with_value v ps = None <-> count_value v ps = 0%nat.
Proof.
  unfold first_with_value, count_value.
  induction ps as [| q ps IH]; simpl.
  - tauto.
  - destruct (String.eqb (phone_value q) v); simpl.
    + split; discriminate.
    + exact IH.
Qed.

Lemma count_value_app (v : string) (l1 l2 : list Phone) :
  count_value v (l1 ++ l2) = (count_value v l1 + count_value v l2)%nat.
Proof. unfold count_value. rewrite filter_app, length_app. reflexivity. Qed.

Lemma count_value_cons_same (v : string) (l : list Phone) :
  count_value v (mkPhone v :: l) = Datatypes.S (count_value v l).
Proof. unfold count_value. simpl. rewrite String.eqb_refl. reflexivity. Qed.

(** [remove_phone] takes out the first phone with the value and nothing
    else. *)
Lemma list_remove_first (v : string) (ps : list Phone) (p : Phone) :
  first_with_value v ps = Some p ->
  exists l1 l2,
    ps = (l1 ++ p :: l2)%list /\
    count_value v l1 = 0%nat /\
    list_remove p ps = (l1 ++ l2)%list.
Proof.
  intros Hfind. pose proof (first_with_value_eq v ps p Hfind) as ->.
  unfold first_with_value in Hfind.
  induction ps as [| q ps IH]; simpl in Hfind; [discriminate |].
  destruct (String.eqb (phone_value q) v) eqn:E.
  - injection Hfind as ->. exists [], ps. simpl.
    unfold Phone_eqb. simpl. rewrite String.eqb_refl. repeat split.
  - destruct (IH Hfind) as (l1 & l2 & -> & Hcount & Hrem).
    exists (q :: l1), l2. simpl. unfold Phone_eqb at 1. simpl. rewrite E.
    split; [reflexivity |]. split.
    + unfold count_value in *. simpl. rewrite E. exact Hcount.
    + rewrite Hrem. reflexivity.
Qed.

Lemma remove_phone_count (v : string) (self : Record_) :
  exists self',
    remove_phone v self = (Ok tt, self') /\
    name self' = name self /\ birthday self' = birthday self /\
    count_value v (phones self') = (count_value v (phones self) - 1)%nat.
Proof.
  unfold remove_phone, bind, get.
  destruct (first_with_value v (phones self)) as [p |] eqn:Hfind.
  - destruct (list_remove_first v (phones self) p Hfind)
      as (l1 & l2 & Hps & Hl1 & Hrem).
    eexists. split; [reflexivity |]. simpl. repeat split.
    rewrite Hrem, Hps, !count_value_app, Hl1.
    pose proof (first_with_value_eq v _ p Hfind) as ->.
    rewrite count_value_cons_same. lia.
  - exists self. repeat split.
    apply first_with_value_None in Hfind. lia.
Qed.

Lemma count_value_zero (v : string) (ps : list Phone) :
  count_value v ps = 0%nat <-> forall q, In q ps -> phone_value q <> v.
Proof.
  rewrite <- first_with_value_None. unfold first_with_value. split.
  - intros Hnone q Hin Heq.
    pose proof (find_none _ _ Hnone q Hin) as H. simpl in H.
    rewrite Heq, String.eqb_refl in H. discriminate H.
  - intros Hall.
    destruct (List.find (fun p => String.eqb (phone_value p) v) ps)
      as [p |] eqn:Hfind; [| reflexivity].
    apply find_some in Hfind. destruct Hfind as [Hin Heq].
    apply String.eqb_eq in Heq. exfalso. exact (Hall p Hin Heq).
Qed.

Lemma Phone_init_Raise (s : string) (e : exn) :
  Phone_init s = Raise e ->
  e = ValueError "Phone number must be 10 digits." /\
  phone_re_match s = false.
Proof.
  unfold Phone_init. destruct (phone_re_match s); simpl; intros H.
  - discriminate H.
  - injection H as <-. split; reflexivity.
Qed.

(** The claim of C5 as it is written fails where the record holds the
    old phone twice: one of the two is left. *)
Lemma edit_phone_invalid_new_counterexample :
  ~ (forall (self : Record_) (old new : string) (e : exn),
        (exists p, In p (phones self) /\ phone_value p = old) ->
        Phone_init new = Raise e ->
        exists e' self',
          edit_phone old new self = (Raise e', self') /\
          ~ (exists p, In p (phones self') /\ phone_value p = old)).
Proof.
  intros H.
  destruct (H (with_phones "ann" ["1234567890"; "1234567890"])
              "1234567890" "12345"
              (ValueError "Phone number must be 10 digits."))
    as (e' & self' & Hrun & Hgone).
  - exists (mkPhone "1234567890"). split; [left |]; reflexivity.
  - reflexivity.
  - vm_compute in Hrun. injection Hrun as <- <-.
    apply Hgone. exists (mkPhone "1234567890").
    split; [left |]; reflexivity.
Qed.

(** C5, amended.  When the record holds a phone equal to [old] and [new]
    fails the validation, [edit_phone] raises the validation error and the
    record is left with the first phone equal to [old] taken out and
    nothing else changed: one occurrence of [old] fewer, and none at all
    when [old] stood once. *)
Theorem edit_phone_invalid_new_removes_first
  (self : Record_) (old new : string) (e : exn) :
  (exists p, In p (phones self) /\ phone_value p = old) ->
  Phone_init new = Raise e ->
  exists l1 l2,
    phones self = (l1 ++ mkPhone old :: l2)%list /\
    count_value old l1 = 0%nat /\
    edit_phone old new self
    = (Raise (ValueError "Phone number must be 10 digits."),
       set_phones self (l1 ++ l2)%list) /\
    count_value old (l1 ++ l2)
    = (count_value old (phones self) - 1)%nat /\
    (count_value old (phones self) = 1%nat ->
     forall q, In q (l1 ++ l2)%list -> phone_value q <> old).
Proof.
  intros (p & Hin & Hp) Hnew.
  destruct (Phone_init_Raise new e Hnew) as [-> Hre].
  destruct (first_with_value old (phones self)) as [p0 |] eqn:Hfind.
  - pose proof (first_with_value_eq old _ p0 Hfind) as ->.
    destruct (list_remove_first old (phones self) _ Hfind)
      as (l1 & l2 & Hps & Hl1 & Hrem).
    exists l1, l2.
    assert (Hcount : count_value old (l1 ++ l2)
                     = (count_value old (phones self) - 1)%nat).
    { rewrite Hps, !count_value_app, count_value_cons_same. lia. }
    split; [exact Hps |]. split; [exact Hl1 |]. split; [| split].
    + unfold edit_phone, remove_phone, add_phone, bind, get, put, lift.
      rewrite Hfind, Hrem, Hnew. reflexivity.
    + exact Hcount.
    + intros Hone. apply count_value_zero. lia.
  - apply first_with_value_None in Hfind.
    exfalso. exact (proj1 (count_value_zero old _) Hfind p Hin Hp).
Qed.

Lemma edit_phone_invalid_new_removes_first_witness :
  exists l1 l2,
    phones (with_phones "ann" ["5555555555"; "1234567890"; "1234567890"])
    = (l1 ++ mkPhone "1234567890" :: l2)%list /\
    count_value "1234567890" l1 = 0%nat /\
    edit_phone "1234567890" "12-34"
      (with_phones "ann" ["5555555555"; "1234567890"; "1234567890"])
    = (Raise (ValueError "Phone number must be 10 digits."),
       set_phones
         (with_phones "ann" ["5555555555"; "1234567890"; "1234567890"])
         (l1 ++ l2)%list) /\
    count_value "1234567890" (l1 ++ l2)
    = (count_value "1234567890"
         (phones
            (with_phones "ann" ["5555555555"; "1234567890"; "1234567890"]))
       - 1)%nat /\
    (count_value "1234567890"
       (phones (with_phones "ann" ["5555555555"; "1234567890"; "1234567890"]))
     = 1%nat ->
     forall q, In q (l1 ++ l2)%list -> phone_value q <> "1234567890").
Proof.
  apply (edit_phone_invalid_new_removes_first
           (with_phones "ann" ["5555555555"; "1234567890"; "1234567890"])
           "1234567890" "12-34"
           (ValueError "Phone number must be 10 digits.")).
  - exists (mkPhone "1234567890"). split; [right; left |]; reflexivity.
  - reflexivity.
Defined.

(** The claim of C6 as it is written fails where the record holds the
    old phone twice: [find_phone] of the old value finds the second. *)
Lemma edit_phone_then_find_counterexample :
  ~ (forall (self : Record_) (old new : string),
        ten_digits new ->
        exists self',
          edit_phone old new self = (Ok tt, self') /\
          find_phone new self' = (Ok (Some (mkPhone new)), self') /\
          find_phone old self' = (Ok None, self')).
Proof.
  intros H.
  destruct (H (with_phones "ann" ["1111111111"; "1111111111"])
              "1111111111" "2222222222")
    as (self' & Hrun & _ & Hold).
  - split; [reflexivity |]. simpl. repeat constructor.
  - vm_compute in Hrun. injection Hrun as <-.
    vm_compute in Hold. discriminate Hold.
Qed.

(** C6, amended.  For a [new] of ten digits, [edit_phone] returns, and
    afterwards [find_phone] of [new] returns a phone of that value;
    [find_phone] of [old] returns [None] when [old] differs from [new]
    and the record held at most one phone equal to [old]. *)
Theorem edit_phone_then_find (self : Record_) (old new : string) :
  ten_digits new ->
  exists self',
    edit_phone old new self = (Ok tt, self') /\
    find_phone new self' = (Ok (Some (mkPhone new)), self') /\
    (old <> new ->
     (count_value old (phones self) <= 1)%nat ->
     find_phone old self' = (Ok None, self')).
Proof.
  intros Hnew.
  destruct (remove_phone_count old self)
    as (self1 & Hrem & Hname & Hbirth & Hcount).
  exists (set_phones self1 (phones self1 ++ [mkPhone new])%list).
  split; [| split].
  - unfold edit_phone, add_phone, bind, get, put, lift.
    rewrite Hrem, (ten_digits_Phone_init new Hnew). reflexivity.
  - unfold find_phone, bind, get, ret. simpl. f_equal. f_equal.
    destruct (first_with_value new (phones self1 ++ [mkPhone new]))
      as [p |] eqn:Hfind.
    + f_equal. eapply first_with_value_eq. exact Hfind.
    + apply first_with_value_None in Hfind.
      rewrite count_value_app, count_value_cons_same in Hfind. lia.
  - intros Hne Hone. unfold find_phone, bind, get, ret. simpl.
    f_equal. f_equal. apply first_with_value_None.
    rewrite count_value_app. unfold count_value at 2. simpl.
    destruct (String.eqb_spec new old); [congruence |]. simpl. lia.
Qed.

Lemma edit_phone_then_find_witness :
  exists self',
    edit_phone "1111111111" "2222222222"
      (with_phones "ann" ["1111111111"; "3333333333"])
    = (Ok tt, self') /\
    find_phone "2222222222" self'
    = (Ok (Some (mkPhone "2222222222")), self') /\
    ("1111111111" <> "2222222222" ->
     (count_value "1111111111"
        (phones (with_phones "ann" ["1111111111"; "3333333333"])) <= 1)%nat ->
     find_phone "1111111111" self' = (Ok None, self')).
Proof.
  apply (edit_phone_then_find
           (with_phones "ann" ["1111111111"; "3333333333"])
           "1111111111" "2222222222").
  split; [reflexivity |]. simpl. repeat constructor.
Defined.

(** ** The command interpreter *)

(** What [input_error] wraps raises nothing: every outcome is a string,
    and an exception shows as a string that starts with ["Error: "] or
    ["Unexpected error: "]. *)
Lemma input_error_total {S : Type} (func : M S string) (s : S) :
  exists r s',
    Bot.input_error func s = (Ok r, s') /\
    s' = snd (func s) /\
    match fst (func s) with
    | Ok r0 => r = r0
    | Raise (TypeError msg) => r = "Unexpected error: " ++ msg
    | Raise (EOFError msg) => r = "Unexpected error: " ++ msg
    | Raise e => r = "Error: " ++ exn_str e
    end.
Proof.
  unfold Bot.input_error.
  destruct (func s) as [[r0 | [msg | msg | msg | msg | msg]] s']; simpl;
    eexists; eexists; repeat split.
Qed.

Lemma print_handler_input_error (func : M AddressBook string)
  (book : AddressBook) :
  exists r book',
    Bot.print_handler (Bot.input_error func) book = Bot.Continue [r] book'.
Proof.
  unfold Bot.print_handler.
  destruct (input_error_total func book) as (r & s' & H & _).
  rewrite H. eauto.
Qed.

Lemma split_from_Some_nonempty (s w : string) : split_from s (Some w) <> [].
Proof.
  revert w. induction s as [| c s IH]; intros w; simpl.
  - discriminate.
  - destruct (is_space c); [discriminate | apply IH].
Qed.

Lemma split_nil_blank (s : string) :
  split s = [] -> strip s = "".
Proof.
  unfold split, strip. intros H.
  assert (Hl : lstrip_chars (list_ascii_of_string s) = []).
  { induction s as [| c s IH]; simpl in *; [reflexivity |].
    destruct (is_space c); [auto |].
    exfalso. exact (split_from_Some_nonempty _ _ H). }
  rewrite Hl. reflexivity.
Qed.

(** [parse_input] raises on no line: a line that is not blank has a first
    word. *)
Lemma parse_input_total (user_input : string) :
  exists r, Bot.parse_input user_input = Ok r.
Proof.
  unfold Bot.parse_input.
  destruct (String.eqb_spec (strip user_input) ""); [eauto |].
  destruct (split user_input) as [| cmd args] eqn:E; [| eauto].
  apply split_nil_blank in E. contradiction.
Qed.

(** An exception leaves a turn of the loop only in the [birthdays] branch,
    the one call of [main] that [input_error] does not wrap. *)
Lemma main_turn_escapes_only_birthdays (today : date) (user_input : string)
  (book book' : AddressBook) (e : exn) :
  Bot.main_turn today user_input book = Bot.Escapes e book' ->
  (exists args, Bot.parse_input user_input = Ok (Some "birthdays", args)) /\
  get_birthdays_per_week today book = (Raise e, book').
Proof.
  unfold Bot.main_turn.
  destruct (parse_input_total user_input) as [[[command |] args] Hparse];
    rewrite Hparse; [| discriminate].
  unfold Bot.add_contact, Bot.change_phone, Bot.get_phone,
    Bot.show_all_contacts, Bot.add_birthday, Bot.show_birthday.
  repeat match goal with
         | |- context [Bot.print_handler (Bot.input_error ?f) ?b] =>
             let r := fresh "r" in
             let b' := fresh "b" in
             let H := fresh "H" in
             destruct (print_handler_input_error f b) as (r & b' & H);
             rewrite H; clear H
         end.
  destruct (str_in command ["close"; "exit"]); [discriminate |].
  repeat match goal with
         | |- context [if String.eqb command ?c then _ else _] =>
             destruct (String.eqb_spec command c); [try discriminate |]
         end; [| discriminate].
  subst command.
  destruct (get_birthdays_per_week today book) as [[[| kv res] | e0] bk];
    try discriminate.
  intros H. injection H as <- <-. split; [eauto | reflexivity].
Qed.

(** C7.  The claim fails on the code: after [add bob 1234567890] and
    [add-birthday bob 29.02.2000], the command [birthdays] on 2025-06-10
    ends the loop of [main] with the [ValueError] of [replace]; nothing is
    printed for the command. *)
Theorem birthdays_command_crashes_main :
  Bot.main (mkdate 2025 6 10)
    ["add bob 1234567890"; "add-birthday bob 29.02.2000"; "birthdays"]
  = Bot.Crashed (ValueError "day is out of range for month")
      ["Welcome to the assistant bot!"; "Contact added."; "Birthday added."]
      [("bob",
        mkRecord (mkName "bob") [mkPhone "1234567890"]
          (Some (mkBirthday (mkdatetime (mkdate 2000 2 29) 0 0 0 0))))].
Proof. vm_compute. reflexivity. Qed.


(** * Further properties of the code *)

(** ** Record *)

(** [remove_phone] raises nothing and touches the phone list only: it
    leaves the record as it is when no phone has the value, and otherwise
    takes out the first phone with the value, the others staying in their
    order. *)
Theorem remove_phone_first_only (v : string) (self : Record_) :
  exists self',
    remove_phone v self = (Ok tt, self') /\
    name self' = name self /\ birthday self' = birthday self /\
    ((count_value v (phones self) = 0%nat /\ self' = self) \/
     (exists l1 l2,
         phones self = (l1 ++ mkPhone v :: l2)%list /\
         count_value v l1 = 0%nat /\
         phones self' = (l1 ++ l2)%list)).
Proof.
  unfold remove_phone, bind, get.
  destruct (first_with_value v (phones self)) as [p |] eqn:Hfind.
  - pose proof (first_with_value_eq v _ p Hfind) as ->.
    destruct (list_remove_first v (phones self) _ Hfind)
      as (l1 & l2 & Hps & Hl1 & Hrem).
    eexists. split; [reflexivity |]. simpl. repeat split.
    right. exists l1, l2. auto.
  - exists self. repeat split. left.
    apply first_with_value_None in Hfind. auto.
Qed.

(** [edit_phone] with a [new] of ten digits returns, and the new phone
    goes to the end of the list, not to the place of the old one: the
    first phone equal to [old] is taken out where it stood, and when no
    phone equals [old] the call only appends. *)
Theorem edit_phone_appends_at_end (self : Record_) (old new : string) :
  ten_digits new ->
  exists self',
    edit_phone old new self = (Ok tt, self') /\
    name self' = name self /\ birthday self' = birthday self /\
    ((count_value old (phones self) = 0%nat /\
      phones self' = (phones self ++ [mkPhone new])%list) \/
     (exists l1 l2,
         phones self = (l1 ++ mkPhone old :: l2)%list /\
         count_value old l1 = 0%nat /\
         phones self' = (l1 ++ l2 ++ [mkPhone new])%list)).
Proof.
  intros Hnew. unfold edit_phone, remove_phone, add_phone, bind, get, put, lift.
  rewrite (ten_digits_Phone_init new Hnew).
  destruct (first_with_value old (phones self)) as [p |] eqn:Hfind.
  - pose proof (first_with_value_eq old _ p Hfind) as ->.
    destruct (list_remove_first old (phones self) _ Hfind)
      as (l1 & l2 & Hps & Hl1 & Hrem).
    eexists. split; [reflexivity |]. simpl. repeat split.
    right. exists l1, l2. rewrite Hrem, <- app_assoc. auto.
  - eexists. split; [reflexivity |]. simpl. repeat split.
    left. apply first_with_value_None in Hfind. auto.
Qed.

Lemma edit_phone_appends_at_end_witness :
  edit_phone "1111111111" "2222222222"
    (with_phones "ann" ["1111111111"; "3333333333"])
  = (Ok tt, with_phones "ann" ["3333333333"; "2222222222"]).
Proof.
  destruct (edit_phone_appends_at_end
              (with_phones "ann" ["1111111111"; "3333333333"])
              "1111111111" "2222222222")
    as (self' & Hrun & _).
  - split; [reflexivity |]. simpl. repeat constructor.
  - reflexivity.
Defined.

(** [find_phone] leaves the record alone and returns the phone of the
    value when the list has one, [None] when it has none. *)
Theorem find_phone_found_iff_present (v : string) (self : Record_) :
  (count_value v (phones self) = 0%nat /\
   find_phone v self = (Ok None, self)) \/
  (In (mkPhone v) (phones self) /\
   find_phone v self = (Ok (Some (mkPhone v)), self)).
Proof.
  unfold find_phone, bind, get, ret.
  destruct (first_with_value v (phones self)) as [p |] eqn:Hfind.
  - right. pose proof (first_with_value_eq v _ p Hfind) as ->.
    split; [| reflexivity].
    unfold first_with_value in Hfind. apply find_some in Hfind. tauto.
  - left. apply first_with_value_None in Hfind. auto.
Qed.

(** [Record(name, birthday)] raises [TypeError] exactly for a birthday
    that is true as a condition and no [datetime]; a birthday that is
    false as a condition ([None], the empty string) is passed over in
    silence.  The record made has the name, no phone, and the birthday
    when one was given. *)
Theorem Record_init_outcome (name_ : string) (value : pyobj) :
  match value with
  | PyDatetime dt =>
      Record_init name_ value
      = Ok (mkRecord (mkName name_) [] (Some (mkBirthday dt)))
  | _ =>
      if truthy value
      then Record_init name_ value
           = Raise (TypeError "Birthday must be a date.")
      else Record_init name_ value = Ok (mkRecord (mkName name_) [] None)
  end.
Proof.
  destruct value as [| s | dt]; try reflexivity.
  unfold Record_init. simpl. destruct (negb (String.eqb s "")); reflexivity.
Qed.

(** [add_birthday] keeps one birthday: a [datetime] takes the place of
    the birthday the record had and reads back as it was given, name and
    phones untouched; any other value raises [TypeError] and leaves the
    birthday the record had. *)
Theorem add_birthday_replaces (value : pyobj) (self : Record_) :
  exists r self',
    add_birthday value self = (r, self') /\
    name self' = name self /\ phones self' = phones self /\
    match value with
    | PyDatetime dt =>
        r = Ok tt /\ birthday self' = Some (mkBirthday dt) /\
        birthday_value (mkBirthday dt) = dt
    | _ =>
        r = Raise (TypeError "Birthday must be a date.") /\ self' = self
    end.
Proof.
  destruct value as [| s | dt]; eexists; eexists;
    (split; [reflexivity |]); simpl; repeat split.
Qed.

(** ** AddressBook *)

(** After [add_record], [find] returns the record under its name and what
    it returned before under every other name. *)
Theorem find_after_add_record (book : AddressBook) (record : Record_)
  (k : string) :
  exists book',
    add_record record book = (Ok tt, book') /\
    find k book'
    = (Ok (if String.eqb k (name_value (name record)) then Some record
           else dict_get k book), book').
Proof.
  eexists. split; [reflexivity |].
  unfold find, bind, get, ret. f_equal. f_equal.
  destruct (String.eqb_spec k (name_value (name record))) as [-> | Hne].
  - apply dict_get_setitem_same.
  - apply dict_get_setitem_other. exact Hne.
Qed.

(** [add_record] keeps the order of the book: a record whose name is a
    key takes the place of the old one where it stood, a record of a new
    name goes to the end. *)
Theorem add_record_keys (book : AddressBook) (record : Record_) :
  dict_keys (snd (add_record record book))
  = if dict_contains (name_value (name record)) book
    then dict_keys book
    else (dict_keys book ++ [name_value (name record)])%list.
Proof.
  simpl.
  destruct (dict_contains (name_value (name record)) book) eqn:E.
  - apply dict_keys_setitem_present. apply dict_contains_keys. exact E.
  - apply dict_keys_setitem_absent. intros Hin.
    apply dict_contains_keys in Hin. congruence.
Qed.

Lemma dict_get_delitem_same {V : Type} (k : string) (d : dict V) :
  dict_wf d -> dict_get k (dict_delitem k d) = None.
Proof.
  unfold dict_wf.
  induction d as [| [k' v'] d IH]; simpl; intros Hwf; [reflexivity |].
  inversion Hwf as [| ? ? Hout Hrest]; subst.
  destruct (String.eqb_spec k' k) as [-> | Hne].
  - apply dict_get_None_keys. exact Hout.
  - simpl. destruct (String.eqb_spec k' k); [contradiction | auto].
Qed.

Lemma dict_get_delitem_other {V : Type} (k k' : string) (d : dict V) :
  k <> k' -> dict_get k (dict_delitem k' d) = dict_get k d.
Proof.
  intros Hne.
  induction d as [| [k0 v0] d IH]; simpl; [reflexivity |].
  destruct (String.eqb_spec k0 k') as [-> | Hne'].
  - destruct (String.eqb_spec k' k); [congruence | reflexivity].
  - simpl. destruct (String.eqb_spec k0 k); [reflexivity | exact IH].
Qed.

Lemma dict_keys_delitem {V : Type} (k : string) (d : dict V) :
  dict_wf d ->
  dict_keys (dict_delitem k d) = List.remove string_dec k (dict_keys d).
Proof.
  unfold dict_wf.
  induction d as [| [k' v'] d IH]; simpl; intros Hwf; [reflexivity |].
  inversion Hwf as [| ? ? Hout Hrest]; subst.
  destruct (String.eqb_spec k' k) as [-> | Hne].
  - destruct (string_dec k k); [| contradiction].
    symmetry. apply notin_remove. exact Hout.
  - destruct (string_dec k k'); [congruence |].
    simpl. f_equal. auto.
Qed.

Lemma dict_delitem_setitem_absent {V : Type} (k : string) (v : V)
  (d : dict V) :
  ~ In k (dict_keys d) -> dict_delitem k (dict_setitem k v d) = d.
Proof.
  induction d as [| [k' v'] d IH]; simpl; intros Hout.
  - rewrite String.eqb_refl. reflexivity.
  - destruct (String.eqb_spec k' k); [exfalso; auto |].
    simpl. destruct (String.eqb_spec k' k); [contradiction |].
    f_equal. apply IH. tauto.
Qed.

(** [delete] raises nothing; after it [find] returns [None] under the
    name and what it returned before under every other name, and the keys
    are the keys of before without the name, in their order. *)
Theorem delete_removes_only_name (book : AddressBook) (name_ : string) :
  dict_wf book ->
  exists book',
    delete name_ book = (Ok tt, book') /\
    find name_ book' = (Ok None, book') /\
    (forall k, k <> name_ -> find k book' = (Ok (dict_get k book), book')) /\
    dict_keys book' = List.remove string_dec name_ (dict_keys book).
Proof.
  intros Hwf. unfold delete, find, bind, get, put, ret.
  destruct (dict_contains name_ book) eqn:E.
  - eexists. split; [reflexivity |]. split; [| split].
    + rewrite dict_get_delitem_same by exact Hwf. reflexivity.
    + intros k Hne. rewrite dict_get_delitem_other by exact Hne. reflexivity.
    + apply dict_keys_delitem. exact Hwf.
  - assert (Hout : ~ In name_ (dict_keys book)).
    { intros Hin. apply dict_contains_keys in Hin. congruence. }
    exists book. split; [reflexivity |]. split; [| split].
    + rewrite (proj2 (dict_get_None_keys name_ book) Hout). reflexivity.
    + reflexivity.
    + symmetry. apply notin_remove. exact Hout.
Qed.

Lemma delete_removes_only_name_witness :
  exists book',
    delete "ann"
      [("bob", with_phones "bob" []); ("ann", born "ann" 1990 6 15);
       ("carl", with_phones "carl" ["1234567890"])]
    = (Ok tt, book') /\
    find "ann" book' = (Ok None, book') /\
    dict_keys book' = ["bob"; "carl"].
Proof.
  destruct (delete_removes_only_name
              [("bob", with_phones "bob" []); ("ann", born "ann" 1990 6 15);
               ("carl", with_phones "carl" ["1234567890"])] "ann")
    as (book' & Hrun & Hfind & _ & Hkeys).
  - unfold dict_wf. simpl.
    repeat constructor; simpl; intuition discriminate.
  - exists book'. split; [exact Hrun |]. split; [exact Hfind |].
    rewrite Hkeys. reflexivity.
Defined.

(** [add_record] of a record whose name is no key, followed by [delete]
    of that name, gives the book back as it was. *)
Theorem add_record_then_delete (book : AddressBook) (record : Record_) :
  ~ In (name_value (name record)) (dict_keys book) ->
  (add_record record ;;; delete (name_value (name record))) book
  = (Ok tt, book).
Proof.
  intros Hout. unfold add_record, delete, bind, get, put, ret.
  unfold dict_contains. rewrite dict_get_setitem_same.
  rewrite dict_delitem_setitem_absent by exact Hout. reflexivity.
Qed.

Lemma add_record_then_delete_witness :
  (add_record (born "ann" 1990 6 15) ;;; delete "ann")
    [("bob", with_phones "bob" [])]
  = (Ok tt, [("bob", with_phones "bob" [])]).
Proof.
  apply (add_record_then_delete [("bob", with_phones "bob" [])]
           (born "ann" 1990 6 15)).
  simpl. intros [H | []]. discriminate H.
Defined.

(** ** get_birthdays_per_week: what the result holds *)






Lemma dict_setitem_In {V : Type} (k k' : string) (v l : V) (d : dict V) :
  In (k, l) (dict_setitem k' v d) -> (k = k' /\ l = v) \/ In (k, l) d.
Proof.
  induction d as [| [k0 v0] d IH]; simpl.
  - intros [H | []]. injection H as <- <-. auto.
  - destruct (String.eqb_spec k0 k') as [-> | Hne]; simpl.
    + intros [H | H]; [injection H as <- <-; auto | auto].
    + intros [H | H]; [auto |]. destruct (IH H); auto.
Qed.

Lemma week_label_working (d : date) : In (week_label d) working_days.
Proof.
  pose proof (week_label_cases d) as H. unfold working_days.
  assert (Hw : 0 <= weekday d < 7) by (apply Z.mod_pos_bound; lia).
  assert (C : weekday d = 0 \/ weekday d = 1 \/ weekday d = 2 \/
              weekday d = 3 \/ weekday d = 4 \/ weekday d = 5 \/
              weekday d = 6) by lia.
  destruct C as [E | [E | [E | [E | [E | [E | E]]]]]];
    rewrite E in H; rewrite H; simpl; auto 6.
Qed.

(** When [get_birthdays_per_week] returns, the mapping has each label
    once, every label is one of Monday to Friday, never Saturday or
    Sunday, and no label is bound to an empty list. *)
Theorem get_birthdays_per_week_labels (today : date)
  (book book' : AddressBook) (res : dict (list string)) :
  get_birthdays_per_week today book = (Ok res, book') ->
  dict_wf res /\
  forall k l, In (k, l) res -> In k working_days /\ l <> [].
Proof.
  unfold get_birthdays_per_week, bind, get. intros Hrun.
  refine (for_loop_preserves (birthdays_step today)
            (fun acc => dict_wf acc /\
                        forall k l, In (k, l) acc ->
                                    In k working_days /\ l <> [])
            _ _ _ _ _ _ Hrun _).
  - intros r acc acc' s s' Hstep [Hwf Hall].
    unfold birthdays_step, bind, lift, ret in Hstep.
    destruct (birthday r) as [b |]; [| injection Hstep as <- _; auto].
    destruct (next_occurrence today (datetime_date (birthday_value b)))
      as [[d delta] | e]; [| discriminate].
    destruct ((0 <=? delta) && (delta <? 7));
      injection Hstep as <- _; [| auto].
    unfold defaultdict_append.
    destruct (dict_get (week_label d) acc) as [l0 |]; split;
      try (apply dict_setitem_wf; exact Hwf);
      intros k l Hin; apply dict_setitem_In in Hin;
      destruct Hin as [[-> ->] | Hin]; auto;
      (split; [apply week_label_working |]).
    + intros H. apply app_eq_nil in H. destruct H as [_ H]. discriminate H.
    + discriminate.
  - split; [constructor | intros k l []].
Qed.

Lemma get_birthdays_per_week_labels_witness :
  dict_wf [("Monday", ["ann"; "dan"]); ("Thursday", ["carl"])] /\
  forall k l,
    In (k, l) [("Monday", ["ann"; "dan"]); ("Thursday", ["carl"])] ->
    In k working_days /\ l <> [].
Proof.
  apply (get_birthdays_per_week_labels (mkdate 2024 6 10)
           [("ann", born "ann" 1990 6 15); ("bob", born "bob" 1985 7 1);
            ("carl", born "carl" 2001 6 13); ("dan", born "dan" 1970 6 10)]
           [("ann", born "ann" 1990 6 15); ("bob", born "bob" 1985 7 1);
            ("carl", born "carl" 2001 6 13); ("dan", born "dan" 1970 6 10)]).
  vm_compute. reflexivity.
Defined.

(** For a book in which no record carries a birthday the call returns the
    empty mapping, whatever the reference date. *)
Theorem get_birthdays_per_week_no_birthdays (today : date)
  (book : AddressBook) :
  (forall key r, In (key, r) book -> birthday r = None) ->
  get_birthdays_per_week today book = (Ok [], book).
Proof.
  intros Hnone. unfold get_birthdays_per_week, bind, get.
  assert (H : forall r, In r (dict_values book) -> birthday r = None).
  { intros r Hin. apply in_map_iff in Hin.
    destruct Hin as ([key r'] & Heq & Hin). simpl in Heq. subst r'.
    eapply Hnone. exact Hin. }
  clear Hnone. generalize (@nil (string * list string)) as acc.
  generalize book at 2 3 as s.
  induction (dict_values book) as [| x xs IH]; intros s acc; simpl.
  - reflexivity.
  - unfold bind at 1, birthdays_step.
    rewrite (H x (or_introl eq_refl)). unfold ret at 1.
    apply IH. intros r Hin. apply H. right. exact Hin.
Qed.

Lemma get_birthdays_per_week_no_birthdays_witness :
  get_birthdays_per_week (mkdate 2025 2 28)
    [("bob", with_phones "bob" ["1234567890"]);
     ("ann", with_phones "ann" [])]
  = (Ok [],
     [("bob", with_phones "bob" ["1234567890"]);
      ("ann", with_phones "ann" [])]).
Proof.
  apply (get_birthdays_per_week_no_birthdays (mkdate 2025 2 28)
           [("bob", with_phones "bob" ["1234567890"]);
            ("ann", with_phones "ann" [])]).
  intros key r [H | [H | []]]; injection H as <- <-; reflexivity.
Defined.

(** ** Dates *)

Lemma date_new_Ok_inv (y m d : Z) (dt : date) :
  date_new y m d = Ok dt ->
  dt = mkdate y m d /\
  (1 <= y <= 9999) /\ (1 <= m <= 12) /\ (1 <= d <= days_in_month y m).
Proof.
  unfold date_new, MINYEAR, MAXYEAR.
  destruct (Z.leb_spec 1 y), (Z.leb_spec y 9999); simpl; try discriminate.
  destruct (Z.leb_spec 1 m), (Z.leb_spec m 12); simpl; try discriminate.
  destruct (Z.leb_spec 1 d), (Z.leb_spec d (days_in_month y m)); simpl;
    try discriminate.
  intros Heq. injection Heq as <-. repeat split; assumption.
Qed.

Lemma date_new_Ok (y m d : Z) :
  1 <= y <= 9999 -> 1 <= m <= 12 -> 1 <= d <= days_in_month y m ->
  date_new y m d = Ok (mkdate y m d).
Proof.
  intros Hy Hm Hd. unfold date_new, MINYEAR, MAXYEAR.
  destruct (Z.leb_spec 1 y), (Z.leb_spec y 9999); try lia.
  destruct (Z.leb_spec 1 m), (Z.leb_spec m 12); try lia.
  destruct (Z.leb_spec 1 d), (Z.leb_spec d (days_in_month y m)); try lia.
  reflexivity.
Qed.

Ltac month_tables :=
  cbv [days_in_month days_before_month DAYS_IN_MONTH DAYS_BEFORE_MONTH nth
       Z.to_nat Pos.to_nat Pos.iter_op Init.Nat.add Z.eqb Z.ltb Z.compare
       Pos.eqb Pos.compare Pos.compare_cont andb] in *.

Lemma month_cases (m : Z) :
  1 <= m <= 12 ->
  m = 1 \/ m = 2 \/ m = 3 \/ m = 4 \/ m = 5 \/ m = 6 \/ m = 7 \/ m = 8 \/
  m = 9 \/ m = 10 \/ m = 11 \/ m = 12.
Proof. lia. Qed.

(** The day of the year of a date lies in the year. *)
Lemma day_of_year_bounds (y m d : Z) :
  1 <= m <= 12 -> 1 <= d <= days_in_month y m ->
  1 <= days_before_month y m + d
  <= 365 + (if is_leap y then 1 else 0).
Proof.
  intros Hm.
  destruct (month_cases m Hm) as
    [-> | [-> | [-> | [-> | [-> | [-> | [-> | [-> | [-> | [-> | [-> | ->]]]]]]]]]]];
    month_tables; destruct (is_leap y); lia.
Qed.

Lemma days_before_year_succ (y : Z) :
  days_before_year (y + 1)
  = days_before_year y + 365 + (if is_leap y then 1 else 0).
Proof.
  unfold days_before_year, is_leap.
  replace (y + 1 - 1) with y by lia.
  destruct (Z.eqb_spec (y mod 4) 0), (Z.eqb_spec (y mod 100) 0),
    (Z.eqb_spec (y mod 400) 0); simpl;
    Z.to_euclidean_division_equations; lia.
Qed.

(** A leap year is followed by a year that is none. *)
Lemma is_leap_succ (y : Z) : is_leap y = true -> is_leap (y + 1) = false.
Proof.
  unfold is_leap.
  destruct (Z.eqb_spec (y mod 4) 0); simpl; [intros _ | discriminate].
  destruct (Z.eqb_spec ((y + 1) mod 4) 0); [| reflexivity].
  exfalso. Z.to_euclidean_division_equations. lia.
Qed.

(** A day of a month that is not February 29 is a day of that month in
    every year. *)
Lemma days_in_month_any_year (y y' m d : Z) :
  d <= days_in_month y m -> ~ (m = 2 /\ d = 29) ->
  d <= days_in_month y' m.
Proof.
  unfold days_in_month.
  destruct (Z.eqb_spec m 2) as [-> | Hne].
  - month_tables. destruct (is_leap y), (is_leap y'); lia.
  - auto.
Qed.

Lemma valid_date_inv (d : date) :
  valid_date d ->
  (1 <= year d <= 9999) /\ (1 <= month d <= 12) /\
  (1 <= day d <= days_in_month (year d) (month d)).
Proof.
  unfold valid_date. intros H. apply date_new_Ok_inv in H. tauto.
Qed.

(** ** get_birthdays_per_week: the next occurrence *)

(** For a reference date that is a date, the occurrence that
    [get_birthdays_per_week] computes has the month and the day of the
    birthday and the year of the reference date or the next one, and its
    distance is the number of days from the reference date to it, never
    negative and at most 365. *)
Theorem next_occurrence_bounds (today bd d : date) (delta : Z) :
  valid_date today ->
  next_occurrence today bd = Ok (d, delta) ->
  month d = month bd /\ day d = day bd /\
  (year d = year today \/ year d = year today + 1) /\
  delta = days_between d today /\
  0 <= delta <= 365.
Proof.
  intros Hvalid. apply valid_date_inv in Hvalid.
  destruct Hvalid as (Hy & Hm & Hd).
  pose proof (day_of_year_bounds (year today) (month today) (day today)
                Hm Hd) as Htoday.
  unfold next_occurrence, date_replace_year.
  destruct (date_new (year today) (month bd) (day bd)) as [d0 | e] eqn:H0;
    [| discriminate].
  apply date_new_Ok_inv in H0. destruct H0 as (-> & _ & Hm0 & Hd0).
  pose proof (day_of_year_bounds _ _ _ Hm0 Hd0) as Hthis.
  unfold days_between, toordinal, ymd2ord. simpl.
  destruct (Z.ltb_spec
              (days_before_year (year today)
               + days_before_month (year today) (month bd) + day bd
               - (days_before_year (year today)
                  + days_before_month (year today) (month today)
                  + day today)) 0) as [Hlt | Hge].
  - destruct (date_new (year today + 1) (month bd) (day bd)) as [d1 | e]
      eqn:H1; [| discriminate].
    apply date_new_Ok_inv in H1. destruct H1 as (-> & _ & _ & Hd1).
    pose proof (day_of_year_bounds _ _ _ Hm0 Hd1) as Hnext.
    intros H. injection H as <- <-. simpl.
    rewrite days_before_year_succ.
    repeat split; auto.
    + unfold days_before_month in *.
      destruct ((2 <? month bd) && is_leap (year today)),
        ((2 <? month bd) && is_leap (year today + 1)),
        (is_leap (year today)); lia.
    + unfold days_before_month in *.
      set (t := nth (Z.to_nat (month bd)) DAYS_BEFORE_MONTH 0) in *.
      destruct (2 <? month bd), (is_leap (year today)),
        (is_leap (year today + 1)); simpl in *; lia.
  - intros H. injection H as <- <-. simpl.
    repeat split; auto; destruct (is_leap (year today)); lia.
Qed.

Lemma next_occurrence_bounds_witness :
  month (mkdate 2025 1 2) = month (mkdate 1990 1 2) /\
  day (mkdate 2025 1 2) = day (mkdate 1990 1 2) /\
  (year (mkdate 2025 1 2) = year (mkdate 2024 12 31) \/
   year (mkdate 2025 1 2) = year (mkdate 2024 12 31) + 1) /\
  2 = days_between (mkdate 2025 1 2) (mkdate 2024 12 31) /\
  0 <= 2 <= 365.
Proof.
  apply (next_occurrence_bounds (mkdate 2024 12 31) (mkdate 1990 1 2)
           (mkdate 2025 1 2) 2); reflexivity.
Defined.

(** A birthday whose month and day are those of the reference date is
    zero days away, and the record is listed under the label of the
    reference date itself. *)
Theorem birthday_on_reference_date_listed (today : date)
  (book book' : AddressBook) (res : dict (list string)) (key : string)
  (r : Record_) (b : Birthday) :
  valid_date today ->
  get_birthdays_per_week today book = (Ok res, book') ->
  In (key, r) book -> birthday r = Some b ->
  month (datetime_date (birthday_value b)) = month today ->
  day (datetime_date (birthday_value b)) = day today ->
  next_occurrence today (datetime_date (birthday_value b)) = Ok (today, 0) /\
  In (name_value (name r)) (lookup_list (week_label today) res).
Proof.
  intros Hvalid Hrun Hin Hb Hm Hd.
  assert (Hocc : next_occurrence today (datetime_date (birthday_value b))
                 = Ok (today, 0)).
  { unfold next_occurrence, date_replace_year. rewrite Hm, Hd.
    unfold valid_date in Hvalid. rewrite Hvalid.
    unfold days_between. rewrite Z.sub_diag. reflexivity. }
  split; [exact Hocc |].
  apply (get_birthdays_per_week_listed today book res book' Hrun key r b
           today 0 Hin Hb Hocc). lia.
Qed.

Lemma birthday_on_reference_date_listed_witness :
  next_occurrence (mkdate 2024 6 10) (mkdate 1970 6 10)
  = Ok (mkdate 2024 6 10, 0) /\
  In "dan" (lookup_list (week_label (mkdate 2024 6 10))
              [("Monday", ["ann"; "dan"])]).
Proof.
  apply (birthday_on_reference_date_listed (mkdate 2024 6 10)
           [("ann", born "ann" 1990 6 15); ("dan", born "dan" 1970 6 10)]
           [("ann", born "ann" 1990 6 15); ("dan", born "dan" 1970 6 10)]
           [("Monday", ["ann"; "dan"])] "dan" (born "dan" 1970 6 10)
           (mkBirthday (mkdatetime (mkdate 1970 6 10) 0 0 0 0)));
    try reflexivity.
  right. left. reflexivity.
Defined.

(** The call returns for every reference date before the year 9999 when
    every birthday of the book is a date other than a February 29. *)
Theorem get_birthdays_per_week_returns_without_leap_days (today : date)
  (book : AddressBook) :
  valid_date today -> year today < 9999 ->
  (forall key r b,
      In (key, r) book -> birthday r = Some b ->
      valid_date (datetime_date (birthday_value b)) /\
      ~ (month (datetime_date (birthday_value b)) = 2 /\
         day (datetime_date (birthday_value b)) = 29)) ->
  exists res, get_birthdays_per_week today book = (Ok res, book).
Proof.
  intros Hvalid Hyear Hall. apply get_birthdays_per_week_returns.
  intros key r b Hin Hb. destruct (Hall key r b Hin Hb) as [Hbd Hno].
  apply valid_date_inv in Hvalid. destruct Hvalid as (Hy & _ & _).
  apply valid_date_inv in Hbd. destruct Hbd as (_ & Hm & Hd).
  set (bd := datetime_date (birthday_value b)) in *.
  assert (Hrep : forall y, 1 <= y <= 9999 ->
                   date_new y (month bd) (day bd)
                   = Ok (mkdate y (month bd) (day bd))).
  { intros y Hrange. apply date_new_Ok; [exact Hrange | exact Hm |].
    split; [lia |].
    apply (days_in_month_any_year (year bd)); [lia | exact Hno]. }
  unfold next_occurrence, date_replace_year. rewrite (Hrep _ Hy). simpl.
  destruct (days_between (mkdate (year today) (month bd) (day bd)) today <? 0).
  - rewrite Hrep by lia. eauto.
  - eauto.
Qed.

Lemma get_birthdays_per_week_returns_without_leap_days_witness :
  exists res,
    get_birthdays_per_week (mkdate 2025 3 10)
      [("ann", born "ann" 1990 3 4); ("bob", with_phones "bob" [])]
    = (Ok res, [("ann", born "ann" 1990 3 4); ("bob", with_phones "bob" [])]).
Proof.
  apply (get_birthdays_per_week_returns_without_leap_days (mkdate 2025 3 10)
           [("ann", born "ann" 1990 3 4); ("bob", with_phones "bob" [])]).
  - reflexivity.
  - reflexivity.
  - intros key r b [H | [H | []]] Hb; injection H as <- <-.
    + injection Hb as <-. split; [reflexivity |].
      simpl. intros [H _]. discriminate H.
    + discriminate Hb.
Defined.

(** A birthday on February 29 makes the call raise also in a leap year,
    from March on: the day is past, and the next year has none. *)
Theorem leap_day_birthday_raises_after_february (today : date)
  (book : AddressBook) (key : string) (r : Record_) (b : Birthday) :
  valid_date today -> is_leap (year today) = true -> 3 <= month today ->
  In (key, r) book -> birthday r = Some b ->
  month (datetime_date (birthday_value b)) = 2 ->
  day (datetime_date (birthday_value b)) = 29 ->
  exists e, get_birthdays_per_week today book = (Raise e, book).
Proof.
  intros Hvalid Hleap Hmarch Hin Hb Hm Hd.
  apply valid_date_inv in Hvalid. destruct Hvalid as (Hy & Hmt & Hdt).
  assert (Hocc : exists e,
             next_occurrence today (datetime_date (birthday_value b))
             = Raise e).
  { unfold next_occurrence, date_replace_year. rewrite Hm, Hd.
    rewrite date_new_Ok;
      [| exact Hy | lia | unfold days_in_month; rewrite Hleap; simpl; lia].
    assert (Hpast : days_between (mkdate (year today) 2 29) today < 0).
    { unfold days_between, toordinal, ymd2ord. simpl.
      destruct (month_cases _ Hmt) as
        [E | [E | [E | [E | [E | [E | [E | [E | [E | [E | [E | E]]]]]]]]]]];
        rewrite E in *; try lia;
        month_tables; rewrite Hleap in *; lia. }
    apply Z.ltb_lt in Hpast. rewrite Hpast. simpl.
    unfold date_new, days_in_month.
    rewrite (is_leap_succ _ Hleap). simpl.
    destruct (negb ((MINYEAR <=? year today + 1)
                    && (year today + 1 <=? MAXYEAR))); eauto. }
  destruct Hocc as [e Hocc].
  unfold get_birthdays_per_week, bind, get.
  eapply birthdays_loop_raises; [| exact Hb | exact Hocc].
  eapply in_book_in_values. exact Hin.
Qed.

Lemma leap_day_birthday_raises_after_february_witness :
  exists e,
    get_birthdays_per_week (mkdate 2024 3 1) [("ann", born "ann" 2000 2 29)]
    = (Raise e, [("ann", born "ann" 2000 2 29)]).
Proof.
  apply (leap_day_birthday_raises_after_february (mkdate 2024 3 1)
           [("ann", born "ann" 2000 2 29)] "ann" (born "ann" 2000 2 29)
           (mkBirthday (mkdatetime (mkdate 2000 2 29) 0 0 0 0)));
    try reflexivity.
  left. reflexivity.
Defined.

(** ** Words and lines *)

Lemma lstrip_chars_nil (cs : list ascii) :
  lstrip_chars cs = [] <-> forallb is_space cs = true.
Proof.
  induction cs as [| c cs IH]; simpl.
  - tauto.
  - destruct (is_space c); simpl; [exact IH |].
    split; discriminate.
Qed.

Lemma lstrip_chars_no_space (cs : list ascii) :
  forallb (fun c => negb (is_space c)) cs = true -> lstrip_chars cs = cs.
Proof.
  destruct cs as [| c cs]; simpl; [reflexivity |].
  destruct (is_space c); simpl; [discriminate | reflexivity].
Qed.

Lemma forallb_rev {A : Type} (f : A -> bool) (l : list A) :
  forallb f (rev l) = forallb f l.
Proof.
  induction l as [| x l IH]; simpl; [reflexivity |].
  rewrite forallb_app, IH. simpl. rewrite andb_true_r. apply andb_comm.
Qed.

(** [strip] leaves a string without white space as it is. *)
Lemma strip_word (w : string) : no_space w = true -> strip w = w.
Proof.
  unfold no_space, strip. intros H.
  rewrite (lstrip_chars_no_space _ H).
  rewrite lstrip_chars_no_space by (rewrite forallb_rev; exact H).
  rewrite rev_involutive. apply string_of_list_ascii_of_string.
Qed.

Lemma lstrip_chars_head (cs : list ascii) :
  match lstrip_chars cs with
  | [] => True
  | c :: _ => is_space c = false
  end.
Proof.
  induction cs as [| c cs IH]; simpl; [exact I |].
  destruct (is_space c) eqn:E; [exact IH | exact E].
Qed.

Lemma split_from_all_space (s : string) :
  forallb is_space (list_ascii_of_string s) = true ->
  split_from s None = [].
Proof.
  induction s as [| c s IH]; simpl; [reflexivity |].
  destruct (is_space c); simpl; [exact IH | discriminate].
Qed.

Lemma strip_blank_split_nil (s : string) : strip s = "" -> split s = [].
Proof.
  unfold strip, split. intros H.
  apply (f_equal list_ascii_of_string) in H.
  rewrite list_ascii_of_string_of_list_ascii in H. simpl in H.
  apply (f_equal (@rev ascii)) in H. rewrite rev_involutive in H.
  simpl in H. apply lstrip_chars_nil in H. rewrite forallb_rev in H.
  pose proof (lstrip_chars_head (list_ascii_of_string s)) as Hhead.
  destruct (lstrip_chars (list_ascii_of_string s)) as [| c l] eqn:E.
  - apply split_from_all_space. apply lstrip_chars_nil. exact E.
  - simpl in H. rewrite Hhead in H. discriminate H.
Qed.

Lemma no_space_app_char (w : string) (c : ascii) :
  no_space w = true -> is_space c = false ->
  no_space (w ++ String c "") = true.
Proof.
  unfold no_space. intros Hw Hc.
  induction w as [| a w IH]; simpl in *.
  - rewrite Hc. reflexivity.
  - apply andb_true_iff in Hw. destruct Hw as [Ha Hw].
    rewrite Ha. simpl. auto.
Qed.

Lemma append_not_empty (w : string) (c : ascii) : w ++ String c "" <> "".
Proof. destruct w; discriminate. Qed.

Lemma split_from_words (s : string) :
  forall cur,
    (forall w, cur = Some w -> is_word w) ->
    Forall is_word (split_from s cur).
Proof.
  induction s as [| c s IH]; intros cur Hcur; simpl.
  - destruct cur as [w |]; [| constructor].
    constructor; [apply Hcur; reflexivity | constructor].
  - destruct (is_space c) eqn:Hc.
    + destruct cur as [w |].
      * constructor; [apply Hcur; reflexivity |].
        apply IH. discriminate.
      * apply IH. discriminate.
    + apply IH. intros w Hw. injection Hw as <-.
      destruct cur as [w0 |].
      * destruct (Hcur w0 eq_refl) as [_ Hns].
        split; [apply append_not_empty |].
        apply no_space_app_char; assumption.
      * split; [discriminate |]. unfold no_space. simpl.
        rewrite Hc. reflexivity.
Qed.

(** The words [split] returns are not empty and hold no white space. *)
Lemma split_words (s : string) : Forall is_word (split s).
Proof. apply split_from_words. discriminate. Qed.

(** The statement of the theorem that follows, kept apart for the proofs
    that use it. *)
Lemma parse_input_words_core (user_input : string) :
  Bot.parse_input user_input
  = Ok (match split user_input with
        | [] => (None, [])
        | cmd :: args => (Some (lower cmd), args)
        end) /\
  Forall is_word (split user_input).
Proof.
  split; [| apply split_words].
  unfold Bot.parse_input.
  destruct (String.eqb_spec (strip user_input) "") as [Hblank | Hword].
  - rewrite (strip_blank_split_nil _ Hblank). reflexivity.
  - pose proof (split_words user_input) as Hwords.
    destruct (split user_input) as [| cmd args] eqn:E.
    + apply split_nil_blank in E. contradiction.
    + inversion Hwords as [| ? ? [_ Hcmd] _]; subst.
      rewrite (strip_word cmd Hcmd). reflexivity.
Qed.

(** [parse_input] never raises: a blank line gives no command, any other
    line its first word in lower case as the command and the other words,
    as they were typed, as the arguments. *)
Theorem parse_input_words (user_input : string) :
  Bot.parse_input user_input
  = Ok (match split user_input with
        | [] => (None, [])
        | cmd :: args => (Some (lower cmd), args)
        end) /\
  Forall is_word (split user_input).
Proof. exact (parse_input_words_core user_input). Qed.

(** ** strptime and strftime *)

Lemma date_new_raises_ValueError (y m d : Z) (e : exn) :
  date_new y m d = Raise e -> exists msg, e = ValueError msg.
Proof.
  unfold date_new.
  destruct (negb ((MINYEAR <=? y) && (y <=? MAXYEAR)));
    [intros H; injection H as <-; eauto |].
  destruct (negb ((1 <=? m) && (m <=? 12)));
    [intros H; injection H as <-; eauto |].
  destruct (negb ((1 <=? d) && (d <=? days_in_month y m)));
    [intros H; injection H as <-; eauto | discriminate].
Qed.

(** The statement of the theorem that follows, kept apart for the proofs
    that use it. *)
Lemma strptime_dmy_outcome_core (s : string) :
  match Bot.strptime_dmy s with
  | Ok dt => valid_date (date_part dt) /\ dt = mkdatetime (date_part dt) 0 0 0 0
  | Raise e => exists msg, e = ValueError msg
  end.
Proof.
  unfold Bot.strptime_dmy.
  destruct (Bot.split_at_dot s) as [[dtok s1] |]; [| eauto].
  destruct (Bot.split_at_dot s1) as [[mtok ytok] |]; [| eauto].
  destruct (Bot.parse_day dtok) as [d |]; [| eauto].
  destruct (Bot.parse_month mtok) as [m |]; [| eauto].
  destruct (Bot.parse_year ytok) as [y |]; [| eauto].
  destruct (date_new y m d) as [dt | e] eqn:E.
  - simpl. split; [| reflexivity].
    destruct (date_new_Ok_inv y m d dt E) as [-> _]. exact E.
  - eapply date_new_raises_ValueError. exact E.
Qed.

(** What [strptime] accepts is a date at midnight, and what it rejects it
    rejects with [ValueError], the exception the handler catches. *)
Theorem strptime_dmy_outcome (s : string) :
  match Bot.strptime_dmy s with
  | Ok dt => valid_date (date_part dt) /\ dt = mkdatetime (date_part dt) 0 0 0 0
  | Raise e => exists msg, e = ValueError msg
  end.
Proof. exact (strptime_dmy_outcome_core s). Qed.

Lemma split_at_dot_app (a b : string) :
  no_dot a = true -> Bot.split_at_dot (a ++ String "."%char b) = Some (a, b).
Proof.
  unfold no_dot. induction a as [| c a IH]; simpl; intros H.
  - reflexivity.
  - apply andb_true_iff in H. destruct H as [Hc Ha].
    apply negb_true_iff in Hc. rewrite Hc, (IH Ha). reflexivity.
Qed.

Lemma range_check (f : Z -> bool) (lo len : nat) :
  forallb f (map Z.of_nat (seq lo len)) = true ->
  forall z, Z.of_nat lo <= z < Z.of_nat lo + Z.of_nat len -> f z = true.
Proof.
  intros Hall z Hz. rewrite forallb_forall in Hall. apply Hall.
  apply in_map_iff. exists (Z.to_nat z). split; [lia |].
  apply in_seq. lia.
Qed.

Lemma field_reads_back_inv (width len : nat) (parse : string -> option Z)
  (n : Z) :
  field_reads_back width len parse n = true ->
  no_dot (zero_pad width (int_str n)) = true /\
  String.length (zero_pad width (int_str n)) = len /\
  parse (zero_pad width (int_str n)) = Some n.
Proof.
  unfold field_reads_back. intros H. apply andb_true_iff in H.
  destruct H as [H Hparse]. apply andb_true_iff in H.
  destruct H as [Hdot Hlen].
  split; [exact Hdot |]. split; [apply Nat.eqb_eq; exact Hlen |].
  destruct (parse (zero_pad width (int_str n))) as [v |]; [| discriminate].
  apply Z.eqb_eq in Hparse. congruence.
Qed.

Lemma day_reads_back (d : Z) :
  1 <= d <= 31 -> field_reads_back 2 2 Bot.parse_day d = true.
Proof.
  intros H. apply (range_check (field_reads_back 2 2 Bot.parse_day) 1 31);
    [vm_compute; reflexivity | lia].
Qed.

Lemma month_reads_back (m : Z) :
  1 <= m <= 12 -> field_reads_back 2 2 Bot.parse_month m = true.
Proof.
  intros H. apply (range_check (field_reads_back 2 2 Bot.parse_month) 1 12);
    [vm_compute; reflexivity | lia].
Qed.

(** From the year 1000 on the year is four digits as it stands. *)
Lemma year_reads_back (y : Z) :
  1000 <= y <= 9999 -> field_reads_back 0 4 Bot.parse_year y = true.
Proof.
  intros H.
  apply (range_check (field_reads_back 0 4 Bot.parse_year)
           (Z.to_nat 1000) (Z.to_nat 9000));
    [vm_compute; reflexivity | lia].
Qed.

Lemma days_in_month_le_31 (y m : Z) : 1 <= m <= 12 -> days_in_month y m <= 31.
Proof.
  intros Hm.
  destruct (month_cases m Hm) as
    [-> | [-> | [-> | [-> | [-> | [-> | [-> | [-> | [-> | [-> | [-> | ->]]]]]]]]]]];
    month_tables; destruct (is_leap y); lia.
Qed.

Lemma length_append (a b : string) :
  String.length (a ++ b) = (String.length a + String.length b)%nat.
Proof. induction a as [| c a IH]; simpl; congruence. Qed.

(** The statement of the theorem that follows, kept apart for the proofs
    that use it. *)
Lemma strptime_strftime_round_trip_core (d : date) :
  valid_date d -> 1000 <= year d ->
  String.length (strftime_dmy d) = 10%nat /\
  Bot.strptime_dmy (strftime_dmy d) = Ok (mkdatetime d 0 0 0 0).
Proof.
  intros Hvalid H1000.
  pose proof (valid_date_inv d Hvalid) as (Hy & Hm & Hd).
  pose proof (days_in_month_le_31 (year d) (month d) Hm) as H31.
  destruct (field_reads_back_inv _ _ _ _
              (day_reads_back (day d) ltac:(lia))) as (Hd1 & Hd3 & Hd2).
  destruct (field_reads_back_inv _ _ _ _
              (month_reads_back (month d) Hm)) as (Hm1 & Hm3 & Hm2).
  destruct (field_reads_back_inv _ _ _ _
              (year_reads_back (year d) ltac:(lia))) as (_ & Hy3 & Hy2).
  change (zero_pad 0 (int_str (year d))) with (int_str (year d)) in Hy2, Hy3.
  split.
  - unfold strftime_dmy. rewrite !length_append, Hd3, Hm3, Hy3. reflexivity.
  - unfold Bot.strptime_dmy, strftime_dmy.
    change ("." ++ ?x) with (String "."%char x).
    rewrite (split_at_dot_app _ _ Hd1).
    change ("." ++ ?x) with (String "."%char x).
    rewrite (split_at_dot_app _ _ Hm1).
    rewrite Hd2, Hm2, Hy2. unfold valid_date in Hvalid. rewrite Hvalid.
    reflexivity.
Qed.

(** Round trip: for a date from the year 1000 on, where every C library
    prints the year in the same four digits, what [strftime("%d.%m.%Y")]
    prints is ten characters, and [strptime] reads it back as that date
    at midnight. *)
Theorem strptime_strftime_round_trip (d : date) :
  valid_date d -> 1000 <= year d ->
  String.length (strftime_dmy d) = 10%nat /\
  Bot.strptime_dmy (strftime_dmy d) = Ok (mkdatetime d 0 0 0 0).
Proof. exact (strptime_strftime_round_trip_core d). Qed.

Lemma strptime_strftime_round_trip_witness :
  String.length (strftime_dmy (mkdate 2000 2 29)) = 10%nat /\
  Bot.strptime_dmy (strftime_dmy (mkdate 2000 2 29))
  = Ok (mkdatetime (mkdate 2000 2 29) 0 0 0 0).
Proof.
  apply (strptime_strftime_round_trip (mkdate 2000 2 29)).
  - reflexivity.
  - cbv. discriminate.
Defined.

(** ** What the interpreter keeps true of its book *)

Lemma lower_char_idem (c : ascii) : lower_char (lower_char c) = lower_char c.
Proof.
  destruct c as [[] [] [] [] [] [] [] []]; vm_compute; reflexivity.
Qed.

Lemma lower_char_space (c : ascii) : is_space (lower_char c) = is_space c.
Proof.
  destruct c as [[] [] [] [] [] [] [] []]; vm_compute; reflexivity.
Qed.

Lemma lower_idem (s : string) : lower (lower s) = lower s.
Proof.
  induction s as [| c s IH]; simpl; [reflexivity |].
  rewrite lower_char_idem, IH. reflexivity.
Qed.

Lemma lower_word (w : string) : is_word w -> is_word (lower w).
Proof.
  intros [Hne Hns]. split.
  - destruct w; [contradiction | discriminate].
  - clear Hne. unfold no_space in *.
    induction w as [| c w IH]; simpl in *; [reflexivity |].
    apply andb_true_iff in Hns. destruct Hns as [Hc Hw].
    rewrite lower_char_space, Hc. simpl. auto.
Qed.

Lemma dict_get_In {V : Type} (k : string) (v : V) (d : dict V) :
  dict_get k d = Some v -> In (k, v) d.
Proof.
  induction d as [| [k' v'] d IH]; simpl; [discriminate |].
  destruct (String.eqb_spec k' k) as [-> | Hne].
  - intros H. injection H as <-. left. reflexivity.
  - intros H. right. auto.
Qed.

Lemma no_space_newline_end (t : string) :
  no_space (t ++ String newline "") = false.
Proof.
  unfold no_space. induction t as [| c t IH]; simpl.
  - reflexivity.
  - rewrite IH. apply andb_false_r.
Qed.

(** A word that [Phone] accepts is ten digits: the newline that [$] lets
    through is white space and stands in no word. *)
Lemma Phone_init_word (phone : string) (p : Phone) :
  is_word phone -> Phone_init phone = Ok p ->
  p = mkPhone phone /\ ten_digits phone.
Proof.
  intros [_ Hns] Hinit. destruct (Phone_init_Ok_inv phone p Hinit)
    as [-> [Hten | (t & -> & _)]].
  - auto.
  - rewrite no_space_newline_end in Hns. discriminate Hns.
Qed.

Lemma input_error_state {S : Type} (func : M S string) (s : S) :
  snd (Bot.input_error func s) = snd (func s).
Proof.
  unfold Bot.input_error.
  destruct (func s) as [[r | [msg | msg | msg | msg | msg]] s']; reflexivity.
Qed.

Lemma bot_inv_setitem (book : AddressBook) (key : string) (r : Record_) :
  bot_inv book -> is_word key -> lower key = key -> record_ok key r ->
  bot_inv (dict_setitem key r book).
Proof.
  intros [Hwf Hall] Hword Hlow Hok. split.
  - apply dict_setitem_wf. exact Hwf.
  - intros k r' Hin. apply dict_setitem_In in Hin.
    destruct Hin as [[-> ->] | Hin]; auto.
Qed.

Lemma add_contact_inv (args : list string) (book : AddressBook) :
  Forall is_word args -> bot_inv book ->
  bot_inv (snd (Bot.add_contact args book)).
Proof.
  intros Hargs Hinv. unfold Bot.add_contact. rewrite input_error_state.
  destruct args as [| name_ [| phone [| x rest]]]; try exact Hinv.
  inversion Hargs as [| ? ? Hname Hrest]; subst.
  inversion Hrest as [| ? ? Hphone _]; subst.
  unfold Bot.add_contact_body, Bot.on_local, add_phone, add_record,
    Record_init, bind, lift, get, put, ret, raise. simpl.
  destruct (Phone_init phone) as [p |] eqn:Hp; simpl; [| exact Hinv].
  destruct (Phone_init_word phone p Hphone Hp) as [-> Hten].
  apply bot_inv_setitem; [exact Hinv | apply lower_word; exact Hname
                         | apply lower_idem |].
  unfold record_ok, set_phones. simpl.
  split; [reflexivity |]. split; [lia |].
  split; [constructor; [exact Hten | constructor] | discriminate].
Qed.

Lemma bind_Ok {S A B : Type} (m : M S A) (k : A -> M S B) (s s' : S)
  (a : A) :
  m s = (Ok a, s') -> bind m k s = k a s'.
Proof. unfold bind. intros ->. reflexivity. Qed.

Lemma bind_ret_state {S A B : Type} (m : M S A) (x : B) (s : S) :
  snd (bind m (fun _ => ret x) s) = snd (m s).
Proof. unfold bind, ret. destruct (m s) as [[a | e] s']; reflexivity. Qed.

Lemma find_eq (name_ : string) (book : AddressBook) :
  find name_ book = (Ok (dict_get name_ book), book).
Proof. reflexivity. Qed.

(** What [change_phone] does to the record it found: the one phone the
    record has goes, and the new one comes when it is valid. *)
Lemma change_entry_state (key new_phone : string) (record : Record_)
  (book : AddressBook) :
  record_ok key record -> is_word new_phone ->
  exists ps,
    (List.length ps <= 1)%nat /\
    Forall (fun p => ten_digits (phone_value p)) ps /\
    snd (match phones record with
         | [] => Bot.on_entry key record (add_phone new_phone)
         | p :: _ =>
             Bot.on_entry key record (edit_phone (phone_value p) new_phone)
         end book)
    = dict_setitem key (set_phones record ps) book.
Proof.
  intros (Hn & Hlen & Hall & Hb) Hphone.
  unfold Bot.on_entry, edit_phone, remove_phone, add_phone, bind, get,
    put, lift, first_with_value.
  destruct (phones record) as [| p [| q rest]] eqn:Hps;
    [| | simpl in Hlen; lia].
  - destruct (Phone_init new_phone) as [p |] eqn:Hp.
    + destruct (Phone_init_word _ _ Hphone Hp) as [-> Hten].
      exists [mkPhone new_phone]. simpl.
      split; [lia |].
      split; [constructor; [exact Hten | constructor] | reflexivity].
    + exists []. simpl.
      split; [lia |]. split; [constructor |].
      destruct record. simpl in *. subst. reflexivity.
  - simpl. rewrite String.eqb_refl. simpl.
    unfold Phone_eqb. rewrite String.eqb_refl.
    destruct (Phone_init new_phone) as [p' |] eqn:Hp.
    + destruct (Phone_init_word _ _ Hphone Hp) as [-> Hten].
      exists [mkPhone new_phone]. simpl.
      split; [lia |].
      split; [constructor; [exact Hten | constructor] | reflexivity].
    + exists []. simpl.
      split; [lia |]. split; [constructor | reflexivity].
Qed.

Lemma change_phone_inv (args : list string) (book : AddressBook) :
  Forall is_word args -> bot_inv book ->
  bot_inv (snd (Bot.change_phone args book)).
Proof.
  intros Hargs Hinv. unfold Bot.change_phone. rewrite input_error_state.
  destruct args as [| name_ [| new_phone [| x rest]]]; try exact Hinv.
  inversion Hargs as [| ? ? Hname Hrest]; subst.
  inversion Hrest as [| ? ? Hphone _]; subst.
  unfold Bot.change_phone_body.
  rewrite (bind_Ok _ _ _ _ _ (find_eq (lower name_) book)).
  destruct (dict_get (lower name_) book) as [record |] eqn:Hget;
    [| exact Hinv].
  apply dict_get_In in Hget.
  destruct (proj2 Hinv _ _ Hget) as (Hkey & Hlow & Hok).
  rewrite bind_ret_state.
  destruct (change_entry_state (lower name_) new_phone record book Hok Hphone)
    as (ps & Hlen & Hall & ->).
  apply bot_inv_setitem; [exact Hinv | exact Hkey | exact Hlow |].
  destruct Hok as (Hn & _ & _ & Hb).
  unfold record_ok, set_phones. simpl. auto.
Qed.

Lemma add_birthday_inv (args : list string) (book : AddressBook) :
  Forall is_word args -> bot_inv book ->
  bot_inv (snd (Bot.add_birthday args book)).
Proof.
  intros Hargs Hinv. unfold Bot.add_birthday. rewrite input_error_state.
  destruct args as [| name_ [| birthday_str [| x rest]]]; try exact Hinv.
  unfold Bot.add_birthday_body.
  rewrite (bind_Ok _ _ _ _ _ (find_eq (lower name_) book)).
  destruct (dict_get (lower name_) book) as [record |] eqn:Hget;
    [| exact Hinv].
  apply dict_get_In in Hget.
  destruct (proj2 Hinv _ _ Hget) as (Hkey & Hlow & Hn & Hlen & Hall & Hb).
  pose proof (strptime_dmy_outcome_core birthday_str) as Hparse.
  destruct (Bot.strptime_dmy birthday_str) as [dt | e].
  - unfold Bot.on_entry, add_birthday, bind, lift, get, put. simpl.
    apply bot_inv_setitem; [exact Hinv | exact Hkey | exact Hlow |].
    unfold record_ok, set_birthday. simpl.
    split; [exact Hn |]. split; [exact Hlen |]. split; [exact Hall |].
    intros b Heq. injection Heq as <-. exact Hparse.
  - destruct Hparse as [msg ->]. exact Hinv.
Qed.

Lemma get_phone_state (args : list string) (book : AddressBook) :
  snd (Bot.get_phone args book) = book.
Proof.
  unfold Bot.get_phone. rewrite input_error_state.
  destruct args as [| name_ rest]; [reflexivity |].
  unfold Bot.get_phone_body.
  rewrite (bind_Ok _ _ _ _ _ (find_eq (lower name_) book)).
  destruct (dict_get (lower name_) book) as [record |]; [| reflexivity].
  destruct (phones record); reflexivity.
Qed.

Lemma show_all_contacts_state (book : AddressBook) :
  snd (Bot.show_all_contacts book) = book.
Proof.
  unfold Bot.show_all_contacts. rewrite input_error_state.
  destruct book; reflexivity.
Qed.

Lemma show_birthday_state (args : list string) (book : AddressBook) :
  snd (Bot.show_birthday args book) = book.
Proof.
  unfold Bot.show_birthday. rewrite input_error_state.
  destruct args as [| name_ rest]; [reflexivity |].
  unfold Bot.show_birthday_body.
  rewrite (bind_Ok _ _ _ _ _ (find_eq (lower name_) book)).
  destruct (dict_get (lower name_) book) as [record |]; [| reflexivity].
  destruct (birthday record); reflexivity.
Qed.

Lemma birthdays_state (today : date) (book : AddressBook) :
  snd (get_birthdays_per_week today book) = book.
Proof.
  unfold get_birthdays_per_week, bind, get.
  apply for_loop_frame. intros x acc s. apply birthdays_step_frame.
Qed.

Lemma print_handler_book (h : M AddressBook string) (book : AddressBook) :
  turn_book (Bot.print_handler h book) = snd (h book).
Proof.
  unfold Bot.print_handler. destruct (h book) as [[r | e] s]; reflexivity.
Qed.

Lemma main_turn_inv (today : date) (user_input : string)
  (book : AddressBook) :
  bot_inv book -> bot_inv (turn_book (Bot.main_turn today user_input book)).
Proof.
  intros Hinv. unfold Bot.main_turn.
  destruct (parse_input_words_core user_input) as [-> Hwords].
  destruct (split user_input) as [| cmd args]; [exact Hinv |].
  inversion Hwords as [| ? ? _ Hargs]; subst.
  destruct (str_in (lower cmd) ["close"; "exit"]); [exact Hinv |].
  repeat match goal with
         | |- context [if String.eqb (lower cmd) ?c then _ else _] =>
             destruct (String.eqb (lower cmd) c)
         end;
    try exact Hinv;
    try rewrite print_handler_book.
  - apply add_contact_inv; assumption.
  - apply change_phone_inv; assumption.
  - rewrite get_phone_state. exact Hinv.
  - rewrite show_all_contacts_state. exact Hinv.
  - apply add_birthday_inv; assumption.
  - rewrite show_birthday_state. exact Hinv.
  - pose proof (birthdays_state today book) as Hs.
    destruct (get_birthdays_per_week today book) as [[[| kv res] | e] s];
      simpl in *; subst s; exact Hinv.
Qed.

Lemma main_loop_inv (today : date) (inputs : list string) :
  forall (printed : list string) (book : AddressBook),
    bot_inv book ->
    bot_inv (run_book (Bot.main_loop today inputs printed book)).
Proof.
  induction inputs as [| user_input rest IH]; intros printed book Hinv;
    simpl; [exact Hinv |].
  pose proof (main_turn_inv today user_input book Hinv) as Hturn.
  destruct (Bot.main_turn today user_input book) as [out b | out b | e b];
    simpl in Hturn; [apply IH | |]; exact Hturn.
Qed.

(** Whatever lines [main] is fed, its book keeps the names apart, and
    every contact stands under its own name, which is one word in lower
    case, has at most one phone, of exactly ten digits (the newline that
    [Phone] lets through never reaches it, the words of a line holding no
    white space), and has for a birthday, when it has one, a date at
    midnight. *)
Theorem main_book_invariant (today : date) (inputs : list string) :
  bot_inv (run_book (Bot.main today inputs)).
Proof.
  unfold Bot.main. apply main_loop_inv.
  split; [constructor | intros key r []].
Qed.

(** ** When the loop of main ends by an exception *)

Lemma birthdays_loop_raise_inv (today : date) (xs : list Record_) :
  forall (acc : dict (list string)) (s s' : AddressBook) (e : exn),
    for_loop xs (birthdays_step today) acc s = (Raise e, s') ->
    exists r b,
      In r xs /\ birthday r = Some b /\
      next_occurrence today (datetime_date (birthday_value b)) = Raise e.
Proof.
  induction xs as [| x xs IH]; intros acc s s' e Hrun; simpl in Hrun.
  - discriminate Hrun.
  - unfold bind at 1 in Hrun.
    destruct (birthdays_step today x acc s) as [[acc' | e'] s1] eqn:Hx.
    + destruct (IH _ _ _ _ Hrun) as (r & b & Hin & Hb & Hocc).
      exists r, b. split; [right; exact Hin | auto].
    + injection Hrun as <- <-.
      unfold birthdays_step, bind, lift, ret in Hx.
      destruct (birthday x) as [b |] eqn:Hb; [| discriminate].
      destruct (next_occurrence today (datetime_date (birthday_value b)))
        as [[d delta] | e0] eqn:Hocc.
      * destruct ((0 <=? delta) && (delta <? 7)); discriminate.
      * injection Hx as <- _. exists x, b.
        split; [left; reflexivity | auto].
Qed.

(** Moving a date to another year fails only for a February 29. *)
Lemma date_replace_year_outcome (bd : date) (y : Z) :
  valid_date bd -> 1 <= y <= 9999 ->
  date_replace_year bd y = Ok (mkdate y (month bd) (day bd)) \/
  (month bd = 2 /\ day bd = 29 /\
   date_replace_year bd y
   = Raise (ValueError "day is out of range for month")).
Proof.
  intros Hbd Hy. apply valid_date_inv in Hbd. destruct Hbd as (_ & Hm & Hd).
  unfold date_replace_year.
  destruct (Z.eq_dec (month bd) 2) as [Em | Em];
    [destruct (Z.eq_dec (day bd) 29) as [Ed | Ed] |].
  - destruct (is_leap y) eqn:Hleap.
    + left. apply date_new_Ok; [exact Hy | exact Hm |].
      rewrite Em, Ed. unfold days_in_month. rewrite Hleap. simpl. lia.
    + right. split; [exact Em |]. split; [exact Ed |].
      unfold date_new, MINYEAR, MAXYEAR, days_in_month.
      rewrite Em, Ed, Hleap.
      destruct (Z.leb_spec 1 y), (Z.leb_spec y 9999); try lia.
      reflexivity.
  - left. apply date_new_Ok; [exact Hy | exact Hm |].
    split; [lia |].
    apply (days_in_month_any_year (year bd)); [lia | tauto].
  - left. apply date_new_Ok; [exact Hy | exact Hm |].
    split; [lia |].
    apply (days_in_month_any_year (year bd)); [lia | tauto].
Qed.

Lemma next_occurrence_raise_inv (today bd : date) (e : exn) :
  valid_date today -> year today < 9999 -> valid_date bd ->
  next_occurrence today bd = Raise e ->
  month bd = 2 /\ day bd = 29 /\
  e = ValueError "day is out of range for month".
Proof.
  intros Htoday Hyear Hbd. apply valid_date_inv in Htoday.
  destruct Htoday as (Hy & _ & _).
  unfold next_occurrence.
  destruct (date_replace_year_outcome bd (year today) Hbd Hy)
    as [-> | (Hm & Hd & ->)].
  - destruct (days_between (mkdate (year today) (month bd) (day bd)) today
              <? 0); [| discriminate].
    change (date_replace_year (mkdate (year today) (month bd) (day bd))
              (year today + 1))
      with (date_replace_year bd (year today + 1)).
    destruct (date_replace_year_outcome bd (year today + 1) Hbd
                ltac:(lia)) as [-> | (Hm & Hd & ->)]; [discriminate |].
    intros H. injection H as <-. auto.
  - intros H. injection H as <-. auto.
Qed.

Lemma has_leap_day_birthday_intro (book : AddressBook) (key : string)
  (r : Record_) (b : Birthday) :
  In (key, r) book -> birthday r = Some b ->
  month (datetime_date (birthday_value b)) = 2 ->
  day (datetime_date (birthday_value b)) = 29 ->
  has_leap_day_birthday book = true.
Proof.
  intros Hin Hb Hm Hd. unfold has_leap_day_birthday.
  apply existsb_exists. exists (key, r). split; [exact Hin |].
  simpl. rewrite Hb, Hm, Hd. reflexivity.
Qed.

(** The statement of the theorem that follows, kept apart for the proofs
    that use it. *)
Lemma get_birthdays_per_week_raises_only_leap_day_core (today : date)
  (book book' : AddressBook) (e : exn) :
  valid_date today -> year today < 9999 ->
  (forall key r b,
      In (key, r) book -> birthday r = Some b ->
      valid_date (datetime_date (birthday_value b))) ->
  get_birthdays_per_week today book = (Raise e, book') ->
  e = ValueError "day is out of range for month" /\
  has_leap_day_birthday book = true.
Proof.
  intros Htoday Hyear Hall Hrun.
  unfold get_birthdays_per_week, bind, get in Hrun.
  apply birthdays_loop_raise_inv in Hrun.
  destruct Hrun as (r & b & Hin & Hb & Hocc).
  apply in_map_iff in Hin. destruct Hin as ([key r'] & Heq & Hin).
  simpl in Heq. subst r'.
  destruct (next_occurrence_raise_inv today _ e Htoday Hyear
              (Hall key r b Hin Hb) Hocc) as (Hm & Hd & ->).
  split; [reflexivity |].
  eapply has_leap_day_birthday_intro; eassumption.
Qed.

(** For a reference date before the year 9999 and a book whose birthdays
    are dates, [get_birthdays_per_week] raises nothing but the
    [ValueError] of [replace], and only when the book holds a birthday on
    a February 29. *)
Theorem get_birthdays_per_week_raises_only_leap_day (today : date)
  (book book' : AddressBook) (e : exn) :
  valid_date today -> year today < 9999 ->
  (forall key r b,
      In (key, r) book -> birthday r = Some b ->
      valid_date (datetime_date (birthday_value b))) ->
  get_birthdays_per_week today book = (Raise e, book') ->
  e = ValueError "day is out of range for month" /\
  has_leap_day_birthday book = true.
Proof.
  exact (get_birthdays_per_week_raises_only_leap_day_core today book book' e).
Qed.

Lemma get_birthdays_per_week_raises_only_leap_day_witness :
  ValueError "day is out of range for month"
  = ValueError "day is out of range for month" /\
  has_leap_day_birthday
    [("bob", born "bob" 1985 7 1); ("ann", born "ann" 2000 2 29)] = true.
Proof.
  apply (get_birthdays_per_week_raises_only_leap_day (mkdate 2025 6 10)
           [("bob", born "bob" 1985 7 1); ("ann", born "ann" 2000 2 29)]
           [("bob", born "bob" 1985 7 1); ("ann", born "ann" 2000 2 29)]);
    try reflexivity.
  intros key r b [H | [H | []]] Hb; injection H as <- <-;
    injection Hb as <-; reflexivity.
Defined.

Lemma main_turn_exit_line (today : date) (user_input : string)
  (book : AddressBook) :
  is_exit_line user_input = true ->
  Bot.main_turn today user_input book = Bot.Break ["Good bye!"] book.
Proof.
  unfold is_exit_line, Bot.main_turn.
  destruct (parse_input_words_core user_input) as [-> _].
  destruct (split user_input) as [| cmd args]; [discriminate |].
  intros ->. reflexivity.
Qed.

Lemma main_loop_crash (today : date) (inputs : list string) :
  valid_date today -> year today < 9999 ->
  forall (printed printed' : list string) (book book' : AddressBook)
         (e : exn),
    bot_inv book ->
    Bot.main_loop today inputs printed book = Bot.Crashed e printed' book' ->
    (e = EOFError "EOF when reading a line" /\
     forallb (fun l => negb (is_exit_line l)) inputs = true) \/
    (e = ValueError "day is out of range for month" /\
     has_leap_day_birthday book' = true).
Proof.
  intros Htoday Hyear.
  induction inputs as [| user_input rest IH];
    intros printed printed' book book' e Hinv Hrun; simpl in Hrun.
  - injection Hrun as <- _ _. left. split; reflexivity.
  - pose proof (main_turn_inv today user_input book Hinv) as Hturn.
    pose proof (main_turn_exit_line today user_input book) as Hexit.
    destruct (Bot.main_turn today user_input book) as [out b | out b | e0 b]
      eqn:Ht; simpl in Hturn.
    + destruct (IH _ _ _ _ _ Hturn Hrun) as [[-> Hrest] | Hleap];
        [left | right; exact Hleap].
      split; [reflexivity |]. simpl. rewrite Hrest.
      destruct (is_exit_line user_input); [| reflexivity].
      discriminate (Hexit eq_refl).
    + discriminate Hrun.
    + injection Hrun as <- _ <-. right.
      apply main_turn_escapes_only_birthdays in Ht.
      destruct Ht as [_ Ht].
      pose proof (birthdays_state today book) as Hs.
      rewrite Ht in Hs. simpl in Hs. subst b.
      apply (get_birthdays_per_week_raises_only_leap_day_core today book book e0
               Htoday Hyear); [| exact Ht].
      intros key r b Hin Hb.
      destruct (proj2 Hinv key r Hin) as (_ & _ & _ & _ & _ & Hbd).
      apply Hbd. exact Hb.
Qed.

(** With the clock before the year 9999 and a standard input of the lines
    [inputs] followed by its end, [main] ends by an exception in two ways
    only: by the [EOFError] of [input()], when the lines ran out and none
    of them was [close] or [exit]; or by the [ValueError] of [replace] in
    the command [birthdays], and then the book holds a contact whose
    birthday is a February 29. *)
Theorem main_exception_eof_or_leap_day (today : date)
  (inputs : list string) (e : exn) (printed : list string)
  (book : AddressBook) :
  valid_date today -> year today < 9999 ->
  Bot.main today inputs = Bot.Crashed e printed book ->
  (e = EOFError "EOF when reading a line" /\
   forallb (fun l => negb (is_exit_line l)) inputs = true) \/
  (e = ValueError "day is out of range for month" /\
   has_leap_day_birthday book = true).
Proof.
  intros Htoday Hyear Hrun. unfold Bot.main in Hrun.
  eapply (main_loop_crash today inputs Htoday Hyear); [| exact Hrun].
  split; [constructor | intros key r []].
Qed.

Lemma main_exception_eof_or_leap_day_witness :
  (EOFError "EOF when reading a line" = EOFError "EOF when reading a line" /\
   forallb (fun l => negb (is_exit_line l))
     ["add Bob 1234567890"; "Hello"; "all"] = true) \/
  (EOFError "EOF when reading a line"
   = ValueError "day is out of range for month" /\
   has_leap_day_birthday [("bob", with_phones "bob" ["1234567890"])] = true).
Proof.
  apply (main_exception_eof_or_leap_day (mkdate 2025 6 10)
           ["add Bob 1234567890"; "Hello"; "all"]
           (EOFError "EOF when reading a line")
           ["Welcome to the assistant bot!"; "Contact added.";
            "How can I help you?";
            "Contact name: bob, phones: 1234567890"]); reflexivity.
Defined.

(** ** The handlers *)

(** [add] with a name and ten digits binds the name, in lower case, to a
    new record that has this one phone and no birthday, also when the name
    had a record before, whose phones and birthday are then lost; the
    other contacts stay.  With a phone that [Phone] rejects, or with
    another number of arguments, the book stays as it was and the answer
    is the error. *)
Theorem add_contact_outcome (args : list string) (book : AddressBook) :
  match args with
  | [name_; phone] =>
      (ten_digits phone ->
       exists book',
         Bot.add_contact args book = (Ok "Contact added.", book') /\
         dict_get (lower name_) book'
         = Some (mkRecord (mkName (lower name_)) [mkPhone phone] None) /\
         forall k, k <> lower name_ -> dict_get k book' = dict_get k book) /\
      (phone_re_match phone = false ->
       Bot.add_contact args book
       = (Ok "Error: Phone number must be 10 digits.", book))
  | _ =>
      Bot.add_contact args book
      = (Ok "Error: Invalid input. Please provide both name and phone number.",
         book)
  end.
Proof.
  destruct args as [| name_ [| phone [| x rest]]]; try reflexivity.
  split.
  - intros Hten.
    exists (dict_setitem (lower name_)
              (mkRecord (mkName (lower name_)) [mkPhone phone] None) book).
    split; [| split].
    + unfold Bot.add_contact, Bot.input_error, Bot.add_contact_body,
        Bot.on_local, add_phone, add_record, Record_init, bind, lift, get,
        put, ret. simpl.
      rewrite (ten_digits_Phone_init phone Hten). reflexivity.
    + apply dict_get_setitem_same.
    + intros k Hne. apply dict_get_setitem_other. exact Hne.
  - intros Hbad.
    unfold Bot.add_contact, Bot.input_error, Bot.add_contact_body,
      Bot.on_local, add_phone, add_record, Record_init, Phone_init, bind,
      lift, get, put, ret, raise. simpl.
    rewrite Hbad. reflexivity.
Qed.

Lemma add_contact_outcome_witness :
  exists book',
    Bot.add_contact ["Ann"; "1234567890"] [("ann", born "ann" 1990 6 15)]
    = (Ok "Contact added.", book') /\
    dict_get "ann" book'
    = Some (mkRecord (mkName "ann") [mkPhone "1234567890"] None).
Proof.
  destruct (add_contact_outcome ["Ann"; "1234567890"]
              [("ann", born "ann" 1990 6 15)]) as [Hok _].
  destruct Hok as (book' & Hrun & Hget & _).
  - split; [reflexivity |]. simpl. repeat constructor.
  - exists book'. split; [exact Hrun | exact Hget].
Defined.

(** [change] on a contact that has a phone: with ten digits the first
    phone goes and the new one is put at the end; with a number that
    [Phone] rejects the answer is the error and the first phone is gone
    from the book all the same. *)
Theorem change_phone_outcome (name_ new_phone : string)
  (book : AddressBook) (record : Record_) (p : Phone) (rest : list Phone) :
  dict_get (lower name_) book = Some record ->
  phones record = p :: rest ->
  (ten_digits new_phone ->
   Bot.change_phone [name_; new_phone] book
   = (Ok ("Contact for " ++ name_ ++ " updated."),
      dict_setitem (lower name_)
        (set_phones record (rest ++ [mkPhone new_phone])%list) book)) /\
  (phone_re_match new_phone = false ->
   Bot.change_phone [name_; new_phone] book
   = (Ok "Error: Phone number must be 10 digits.",
      dict_setitem (lower name_) (set_phones record rest) book)).
Proof.
  intros Hget Hps.
  assert (Hrem : remove_phone (phone_value p) record
                 = (Ok tt, set_phones record rest)).
  { unfold remove_phone, bind, get, put, first_with_value.
    rewrite Hps. simpl. rewrite String.eqb_refl.
    unfold Phone_eqb. rewrite String.eqb_refl. reflexivity. }
  split.
  - intros Hten.
    unfold Bot.change_phone, Bot.input_error, Bot.change_phone_body.
    rewrite (bind_Ok _ _ _ _ _ (find_eq (lower name_) book)), Hget, Hps.
    unfold Bot.on_entry, edit_phone, add_phone, bind, lift, get, put, ret.
    rewrite Hrem, (ten_digits_Phone_init _ Hten). reflexivity.
  - intros Hbad.
    unfold Bot.change_phone, Bot.input_error, Bot.change_phone_body.
    rewrite (bind_Ok _ _ _ _ _ (find_eq (lower name_) book)), Hget, Hps.
    unfold Bot.on_entry, edit_phone, add_phone, Phone_init, bind, lift, get,
      put, ret.
    rewrite Hrem, Hbad. reflexivity.
Qed.

Lemma change_phone_outcome_witness :
  Bot.change_phone ["Ann"; "12345"]
    [("ann", with_phones "ann" ["1234567890"])]
  = (Ok "Error: Phone number must be 10 digits.",
     [("ann", with_phones "ann" [])]).
Proof.
  destruct (change_phone_outcome "Ann" "12345"
              [("ann", with_phones "ann" ["1234567890"])]
              (with_phones "ann" ["1234567890"]) (mkPhone "1234567890") [])
    as [_ Hbad]; [reflexivity | reflexivity |].
  rewrite Hbad; reflexivity.
Defined.

(** [change], [phone], [add-birthday] and [show-birthday] with a name the
    book does not hold answer that nothing was found and leave the book
    as it was; the name is looked up in lower case. *)
Theorem handlers_contact_not_found (name_ arg : string)
  (book : AddressBook) :
  dict_get (lower name_) book = None ->
  Bot.change_phone [name_; arg] book = (Ok "Contact not found.", book) /\
  Bot.get_phone [name_] book = (Ok "Contact not found.", book) /\
  Bot.add_birthday [name_; arg] book = (Ok "Contact not found.", book) /\
  Bot.show_birthday [name_] book
  = (Ok "Birthday not found for this contact.", book).
Proof.
  intros Hget.
  unfold Bot.change_phone, Bot.get_phone, Bot.add_birthday,
    Bot.show_birthday, Bot.input_error, Bot.change_phone_body,
    Bot.get_phone_body, Bot.add_birthday_body, Bot.show_birthday_body.
  rewrite !(bind_Ok _ _ _ _ _ (find_eq (lower name_) book)), Hget.
  repeat split.
Qed.

Lemma handlers_contact_not_found_witness :
  Bot.change_phone ["Carl"; "1234567890"] [("ann", with_phones "ann" [])]
  = (Ok "Contact not found.", [("ann", with_phones "ann" [])]).
Proof.
  apply (handlers_contact_not_found "Carl" "1234567890"
           [("ann", with_phones "ann" [])]).
  reflexivity.
Defined.

(** [add-birthday] on a contact of the book: a text that [strptime] reads
    is stored as the birthday of the contact, and for a date from the
    year 1000 on [show-birthday] then prints it in the ten characters of
    [DD.MM.YYYY], which read back as the date stored; a text that
    [strptime] rejects gives the answer on the format and leaves the book
    as it was. *)
Theorem add_birthday_then_show_birthday (name_ birthday_str : string)
  (book : AddressBook) (record : Record_) :
  dict_get (lower name_) book = Some record ->
  match Bot.strptime_dmy birthday_str with
  | Ok dt =>
      exists book',
        Bot.add_birthday [name_; birthday_str] book
        = (Ok "Birthday added.", book') /\
        dict_get (lower name_) book'
        = Some (set_birthday record (Some (mkBirthday dt))) /\
        (1000 <= year (date_part dt) ->
         exists text,
           Bot.show_birthday [name_] book' = (Ok text, book') /\
           String.length text = 10%nat /\
           Bot.strptime_dmy text = Ok dt)
  | Raise _ =>
      Bot.add_birthday [name_; birthday_str] book
      = (Ok "Invalid date format. Use DD.MM.YYYY.", book)
  end.
Proof.
  intros Hget.
  pose proof (strptime_dmy_outcome_core birthday_str) as Hparse.
  destruct (Bot.strptime_dmy birthday_str) as [dt | e] eqn:Hs.
  - destruct Hparse as [Hvalid Hdt].
    exists (dict_setitem (lower name_)
              (set_birthday record (Some (mkBirthday dt))) book).
    split; [| split].
    + unfold Bot.add_birthday, Bot.input_error, Bot.add_birthday_body.
      rewrite (bind_Ok _ _ _ _ _ (find_eq (lower name_) book)), Hget, Hs.
      reflexivity.
    + apply dict_get_setitem_same.
    + intros H1000. exists (strftime_dmy (date_part dt)).
      destruct (strptime_strftime_round_trip_core _ Hvalid H1000)
        as [Hlen Hback].
      split; [| split; [exact Hlen |]].
      * unfold Bot.show_birthday, Bot.input_error, Bot.show_birthday_body.
        rewrite (bind_Ok _ _ _ _ _ (find_eq (lower name_) _)).
        rewrite dict_get_setitem_same. reflexivity.
      * rewrite Hback. rewrite Hdt at 2. reflexivity.
  - destruct Hparse as [msg ->].
    unfold Bot.add_birthday, Bot.input_error, Bot.add_birthday_body.
    rewrite (bind_Ok _ _ _ _ _ (find_eq (lower name_) book)), Hget, Hs.
    reflexivity.
Qed.

Lemma add_birthday_then_show_birthday_witness :
  exists book',
    Bot.add_birthday ["Ann"; "5.6.1990"] [("ann", with_phones "ann" [])]
    = (Ok "Birthday added.", book') /\
    exists text,
      Bot.show_birthday ["Ann"] book' = (Ok text, book') /\
      String.length text = 10%nat /\
      Bot.strptime_dmy text = Ok (mkdatetime (mkdate 1990 6 5) 0 0 0 0).
Proof.
  pose proof (add_birthday_then_show_birthday "Ann" "5.6.1990"
                [("ann", with_phones "ann" [])] (with_phones "ann" [])
                eq_refl) as H.
  vm_compute Bot.strptime_dmy in H.
  destruct H as (book' & Hadd & _ & Hshow).
  exists book'. split; [exact Hadd |].
  apply Hshow. cbv. discriminate.
Defined.

(** ** The script of task1.py *)

Lemma days_before_month_dec (y : Z) :
  days_before_month y 12 = 334 + (if is_leap y then 1 else 0).
Proof. month_tables. destruct (is_leap y); reflexivity. Qed.

Lemma day_of_year_before_december (y m d : Z) :
  1 <= m <= 11 -> 1 <= d <= days_in_month y m ->
  days_before_month y m + d <= 334 + (if is_leap y then 1 else 0).
Proof.
  intros Hm.
  assert (Hm' : 1 <= m <= 12) by lia.
  destruct (month_cases m Hm') as
    [-> | [-> | [-> | [-> | [-> | [-> | [-> | [-> | [-> | [-> | [-> | ->]]]]]]]]]]];
    try lia; month_tables; destruct (is_leap y); lia.
Qed.

Lemma outside_window (x : Z) :
  ~ (0 <= x <= 6) -> (0 <=? x) && (x <? 7) = false.
Proof.
  intros H. destruct (Z.leb_spec 0 x), (Z.ltb_spec x 7); simpl;
    try reflexivity. lia.
Qed.

Lemma dec_19_occurrence (today : date) :
  valid_date today -> year today < 9999 ->
  exists d delta,
    next_occurrence today (mkdate 1990 12 19) = Ok (d, delta) /\
    if week_before_dec_19 today
    then d = mkdate (year today) 12 19 /\ 0 <= delta <= 6
    else (0 <=? delta) && (delta <? 7) = false.
Proof.
  intros Hvalid Hyear. apply valid_date_inv in Hvalid.
  destruct Hvalid as (Hy & Hm & Hd).
  assert (H31 : forall y, 1 <= 19 <= days_in_month y 12)
    by (intros y; month_tables; lia).
  unfold next_occurrence, date_replace_year. cbn [month day year].
  rewrite (date_new_Ok (year today) 12 19 Hy ltac:(lia) (H31 _)).
  cbn [month day year].
  rewrite (date_new_Ok (year today + 1) 12 19 ltac:(lia) ltac:(lia) (H31 _)).
  unfold days_between, toordinal, ymd2ord, week_before_dec_19.
  cbn [month day year].
  rewrite days_before_year_succ, !days_before_month_dec.
  pose proof (day_of_year_bounds _ _ _ Hm Hd) as Hdoy.
  destruct (Z.eqb_spec (month today) 12) as [E | E].
  - rewrite E in *. rewrite days_before_month_dec in *.
    assert (Hd31 : day today <= 31) by (revert Hd; month_tables; lia).
    match goal with
    | |- context [if ?c <? 0 then _ else _] => destruct (Z.ltb_spec c 0)
    end;
      destruct (Z.leb_spec 13 (day today)), (Z.leb_spec (day today) 19);
      cbn [andb]; eexists; eexists; (split; [reflexivity |]);
      try (split; [reflexivity |]);
      try apply outside_window;
      destruct (is_leap (year today)), (is_leap (year today + 1)); lia.
  - assert (Hm11 : 1 <= month today <= 11) by lia.
    pose proof (day_of_year_before_december _ _ _ Hm11 Hd) as Hnov.
    cbn [andb].
    match goal with
    | |- context [if ?c <? 0 then _ else _] => destruct (Z.ltb_spec c 0)
    end;
      eexists; eexists; (split; [reflexivity |]);
      apply outside_window;
      destruct (is_leap (year today)), (is_leap (year today + 1)); lia.
Qed.

(** The script of [task1.py], run on a date before the year 9999, raises
    nothing; it prints one line, John under the label of December 19 of
    the running year, on the days from December 13 to December 19, and
    no line on any other day. *)
Theorem task1_script_prints_john_in_his_week (today : date) :
  valid_date today -> year today < 9999 ->
  task1_script today []
  = (Ok (if week_before_dec_19 today
         then [week_label (mkdate (year today) 12 19) ++ ": John"]
         else []),
     [("John",
       mkRecord (mkName "John") [mkPhone "1234567890"]
         (Some (mkBirthday (mkdatetime (mkdate 1990 12 19) 0 0 0 0))))]).
Proof.
  intros Hvalid Hyear.
  destruct (dec_19_occurrence today Hvalid Hyear) as (d & delta & Hocc & Hw).
  change (task1_script today [])
    with ((birthdays_next_week <- get_birthdays_per_week today ;;
           ret (map (fun kv => fst kv ++ ": " ++ join ", " (snd kv))
                  birthdays_next_week))
            [("John",
              mkRecord (mkName "John") [mkPhone "1234567890"]
                (Some (mkBirthday
                         (mkdatetime (mkdate 1990 12 19) 0 0 0 0))))]).
  unfold get_birthdays_per_week, bind, get.
  cbn [dict_values map snd for_loop].
  unfold bind, birthdays_step.
  cbn [birthday birthday_value datetime_date date_part].
  unfold bind, lift. rewrite Hocc.
  destruct (week_before_dec_19 today).
  - destruct Hw as [-> Hdelta].
    replace ((0 <=? delta) && (delta <? 7)) with true.
    + reflexivity.
    + symmetry. apply andb_true_iff.
      split; [apply Z.leb_le | apply Z.ltb_lt]; lia.
  - rewrite Hw. reflexivity.
Qed.

Lemma task1_script_prints_john_in_his_week_witness :
  task1_script (mkdate 2024 12 16) []
  = (Ok ["Thursday: John"],
     [("John",
       mkRecord (mkName "John") [mkPhone "1234567890"]
         (Some (mkBirthday (mkdatetime (mkdate 1990 12 19) 0 0 0 0))))]).
Proof.
  rewrite (task1_script_prints_john_in_his_week (mkdate 2024 12 16));
    reflexivity.
Defined.

(** ** Phone, the loop and the leap day once more *)

(** [Phone] accepts a string exactly when it is ten digits, or ten digits
    and one newline after them; it keeps the string as it is, and it
    rejects every other string with the [ValueError] on ten digits. *)
Theorem Phone_init_accepts_iff (s : string) :
  ((exists p, Phone_init s = Ok p) <->
   (ten_digits s \/
    exists t, s = t ++ String newline "" /\ ten_digits t)) /\
  (forall p, Phone_init s = Ok p -> phone_value p = s) /\
  (forall e, Phone_init s = Raise e ->
             e = ValueError "Phone number must be 10 digits.").
Proof.
  split; [split |].
  - intros [p Hp]. apply (Phone_init_Ok_inv s p Hp).
  - intros [Hten | (t & -> & [Hlen Hall])].
    + exists (mkPhone s). apply ten_digits_Phone_init. exact Hten.
    + exists (mkPhone (t ++ String newline "")).
      unfold Phone_init, phone_re_match.
      pose proof (match_digits_complete t (String newline "") Hall) as H.
      rewrite Hlen in H. rewrite H. reflexivity.
  - split.
    + intros p Hp. destruct (Phone_init_Ok_inv s p Hp) as [-> _].
      reflexivity.
    + intros e He. apply (Phone_init_Raise s e He).
Qed.

(** An exception leaves a turn of the loop of [main] only through the
    command [birthdays], and it is the exception that
    [get_birthdays_per_week] raised: the handlers of all other commands
    answer with a string whatever they are given. *)
Theorem main_turn_exception_origin (today : date) (user_input : string)
  (book book' : AddressBook) (e : exn) :
  Bot.main_turn today user_input book = Bot.Escapes e book' ->
  (exists cmd args,
      split user_input = cmd :: args /\ lower cmd = "birthdays") /\
  get_birthdays_per_week today book = (Raise e, book') /\
  book' = book.
Proof.
  intros Hturn.
  destruct (main_turn_escapes_only_birthdays _ _ _ _ _ Hturn)
    as [[args Hparse] Hrun].
  split; [| split; [exact Hrun |]].
  - destruct (parse_input_words_core user_input) as [Hp _].
    rewrite Hp in Hparse.
    destruct (split user_input) as [| cmd rest]; [discriminate |].
    injection Hparse as Hcmd _. exists cmd, rest. auto.
  - pose proof (birthdays_state today book) as Hs.
    rewrite Hrun in Hs. exact Hs.
Qed.

Lemma main_turn_exception_origin_witness :
  (exists cmd args,
      split "  BirthDays now" = cmd :: args /\ lower cmd = "birthdays") /\
  get_birthdays_per_week (mkdate 2025 6 10) [("ann", born "ann" 2000 2 29)]
  = (Raise (ValueError "day is out of range for month"),
     [("ann", born "ann" 2000 2 29)]) /\
  [("ann", born "ann" 2000 2 29)] = [("ann", born "ann" 2000 2 29)].
Proof.
  apply (main_turn_exception_origin (mkdate 2025 6 10) "  BirthDays now"
           [("ann", born "ann" 2000 2 29)]).
  reflexivity.
Defined.

Lemma leap_day_birthday_raises_witness :
  exists e,
    get_birthdays_per_week (mkdate 2023 1 15)
      [("bob", born "bob" 1985 7 1); ("ann", born "ann" 1996 2 29)]
    = (Raise e,
       [("bob", born "bob" 1985 7 1); ("ann", born "ann" 1996 2 29)]).
Proof.
  apply (leap_day_birthday_raises (mkdate 2023 1 15)
           [("bob", born "bob" 1985 7 1); ("ann", born "ann" 1996 2 29)]
           "ann" (born "ann" 1996 2 29)
           (mkBirthday (mkdatetime (mkdate 1996 2 29) 0 0 0 0)));
    try reflexivity.
  right. left. reflexivity.
Defined.
